(** * MrBeat sequencing core: tracks and the master mixer

    A shallow embedding of [audio_source_track.py] and
    [audio_source_mixer.py].

    Modelling conventions.
    - Python [int] values are [Z]; a tuple of step flags is a [list Z].
    - Python [float] values (step durations, clock readings) are exact
      rationals [Q]; rounding of the binary representation is not modelled.
    - An object is a record; a method takes the record and gives back the
      updated record.  Methods that can raise give an [outcome]; methods
      that act on the outside world also give the list of [effect]s, in
      program order.
    - A [with lock:] block is executed atomically.
    - A sequencer thread is represented by the value of the only local
      variable of its loop, [last_step_time]; [None] means that no thread
      is executing the loop. *)

From stdpp Require Import base list.
From Stdlib Require Import ZArith QArith Lia.
From Stdlib Require String.

Local Open Scope Z_scope.

(** ** Shared vocabulary *)

Inductive exn : Type :=
| ValueError
| IndexError.

(** What a method does to the world outside the object. *)
Inductive effect : Type :=
| Subscript (i : Z)            (* evaluation of [self.steps[i]] *)
| TriggerSample                (* call of [_trigger_audio_sample] *)
| PlaySound (samples : list Z) (* [pygame.mixer.Sound(buffer=...).play()] *)
| StepChanged (display : Z)    (* [on_current_step_changed(display)] *)
| Uncaught (e : exn).          (* exception that ends a thread *)

Definition is_trigger (eff : effect) : bool :=
  match eff with
  | TriggerSample => true
  | _ => false
  end.

(** Result of a method that may raise: the value or the exception, and the
    object as the method left it. *)
Inductive outcome (S A : Type) : Type :=
| Returned (a : A) (s : S)
| Raised (e : exn) (s : S).
Arguments Returned {S A} a s.
Arguments Raised {S A} e s.

Definition state_of {S A} (o : outcome S A) : S :=
  match o with
  | Returned _ s => s
  | Raised _ s => s
  end.

(** [len(l)] *)
Definition len {A} (l : list A) : Z := Z.of_nat (length l).

(** [l[i]] on a tuple: a negative index counts from the end, an index out
    of range raises [IndexError] ([None]). *)
Definition py_getitem {A} (l : list A) (i : Z) : option A :=
  if 0 <=? i then l !! Z.to_nat i
  else if - len l <=? i then l !! Z.to_nat (len l + i)
  else None.

(** [(x,) * n]: a negative count gives the empty tuple. *)
Definition py_repeat {A} (x : A) (n : Z) : list A := replicate (Z.to_nat n) x.

(** [b * n] on a byte string: [n] copies of [b] one after the other, none
    when [n] is negative. *)
Definition py_repeat_bytes (b : list Byte.byte) (n : Z) : list Byte.byte :=
  mjoin (replicate (Z.to_nat n) b).

(** [enumerate(l)], counting from [start]. *)
Fixpoint enumerate {A} (start : Z) (l : list A) : list (Z * A) :=
  match l with
  | [] => []
  | x :: l' => (start, x) :: enumerate (start + 1) l'
  end.

(** ** audio_source_track.py *)

Module AudioSourceTrack.

Record t : Type := mk {
  wav_samples : list Z;
  nb_wav_samples : Z;
  bpm : Z;
  min_bpm : Z;
  sample_rate : Z;
  steps : list Z;
  current_step_index : Z;
  is_running : bool;
  stop_event : bool;
  playback_thread : option Q;
  step_nb_samples : Z;
  buffer_nb_samples : Z;
  step_duration : Q
}.

Definition with_steps (v : list Z) (self : t) : t :=
  mk (wav_samples self) (nb_wav_samples self) (bpm self) (min_bpm self)
     (sample_rate self) v (current_step_index self) (is_running self)
     (stop_event self) (playback_thread self) (step_nb_samples self)
     (buffer_nb_samples self) (step_duration self).

Definition with_current_step_index (v : Z) (self : t) : t :=
  mk (wav_samples self) (nb_wav_samples self) (bpm self) (min_bpm self)
     (sample_rate self) (steps self) v (is_running self)
     (stop_event self) (playback_thread self) (step_nb_samples self)
     (buffer_nb_samples self) (step_duration self).

Definition with_bpm (v : Z) (self : t) : t :=
  mk (wav_samples self) (nb_wav_samples self) v (min_bpm self)
     (sample_rate self) (steps self) (current_step_index self)
     (is_running self) (stop_event self) (playback_thread self)
     (step_nb_samples self) (buffer_nb_samples self) (step_duration self).

Definition with_step_nb_samples (v : Z) (self : t) : t :=
  mk (wav_samples self) (nb_wav_samples self) (bpm self) (min_bpm self)
     (sample_rate self) (steps self) (current_step_index self)
     (is_running self) (stop_event self) (playback_thread self)
     v (buffer_nb_samples self) (step_duration self).

Definition with_step_duration (v : Q) (self : t) : t :=
  mk (wav_samples self) (nb_wav_samples self) (bpm self) (min_bpm self)
     (sample_rate self) (steps self) (current_step_index self)
     (is_running self) (stop_event self) (playback_thread self)
     (step_nb_samples self) (buffer_nb_samples self) v.

Definition with_thread (running stopping : bool) (th : option Q) (self : t) : t :=
  mk (wav_samples self) (nb_wav_samples self) (bpm self) (min_bpm self)
     (sample_rate self) (steps self) (current_step_index self)
     running stopping th
     (step_nb_samples self) (buffer_nb_samples self) (step_duration self).

(** [int(self.sample_rate * 15 / bpm_value)], 0 when [bpm_value] is 0;
    [int] truncates toward zero. *)
Definition _compute_step_nb_samples (sample_rate bpm_value : Z) : Z :=
  if bpm_value =? 0 then 0 else Z.quot (sample_rate * 15) bpm_value.

Definition _calculate_step_duration (self : t) : t :=
  if 0 <? bpm self
  then with_step_duration (15 / inject_Z (bpm self))%Q self
  else with_step_duration 0%Q self.

Definition __init__ (wav_samples : list Z) (bpm sample_rate min_bpm : Z) : t :=
  let self :=
    mk wav_samples (len wav_samples) bpm min_bpm sample_rate
       [] 0 false false None
       (_compute_step_nb_samples sample_rate bpm)
       (_compute_step_nb_samples sample_rate min_bpm)
       0%Q in
  let self := _calculate_step_duration self in
  if bpm =? 0 then self
  else
    let calculated_samples := Z.quot (sample_rate * 15) bpm in
    if calculated_samples =? step_nb_samples self then self
    else with_step_nb_samples calculated_samples self.

(** [start]: [now] is the clock reading the new thread takes when it
    enters [_sequencer_loop]. *)
Definition start (now : Q) (self : t) : t :=
  if is_running self then self
  else with_thread true false (Some now) self.

(** [stop]: the join is taken to succeed, so the thread is gone. *)
Definition stop (self : t) : t :=
  if is_running self then with_thread false true None self
  else self.

Definition _no_steps_activated (self : t) : bool :=
  if len (steps self) =? 0 then true
  else negb (existsb (fun step => step =? 1) (steps self)).

Definition _trigger_audio_sample (self : t) : list effect :=
  TriggerSample ::
  (if negb (bool_decide (wav_samples self = [])) && (0 <? nb_wav_samples self)
   then [PlaySound (wav_samples self)]
   else []).

Definition _process_current_step (self : t) : list effect * option exn :=
  if negb (_no_steps_activated self)
     && (current_step_index self <? len (steps self))
  then
    match py_getitem (steps self) (current_step_index self) with
    | Some step =>
        (Subscript (current_step_index self) ::
           (if step =? 1 then _trigger_audio_sample self else []),
         None)
    | None => ([Subscript (current_step_index self)], Some IndexError)
    end
  else ([], None).

(** The second locked block of the loop body: advance and wrap. *)
Definition _advance_step (self : t) : t :=
  let next := current_step_index self + 1 in
  if len (steps self) <=? next
  then with_current_step_index 0 self
  else with_current_step_index next self.

(** One pass through the body of the [while] of [_sequencer_loop];
    [Some effs] when a step was processed on this pass. *)
Definition _sequencer_loop (current_time : Q) (self : t)
    : t * option (list effect) :=
  match playback_thread self with
  | None => (self, None)
  | Some last_step_time =>
      if is_running self && negb (stop_event self) then
        if Qle_bool (step_duration self) (current_time - last_step_time) then
          match _process_current_step self with
          | (effs, None) =>
              (_advance_step
                 (with_thread (is_running self) (stop_event self)
                              (Some current_time) self),
               Some effs)
          | (effs, Some e) =>
              (with_thread (is_running self) (stop_event self) None self,
               Some (effs ++ [Uncaught e]))
          end
        else (self, None)
      else (with_thread (is_running self) (stop_event self) None self, None)
  end.

Definition set_steps (new_steps : list Z) (self : t) : t :=
  let self :=
    if len new_steps =? len (steps self) then self
    else with_current_step_index 0 self in
  with_steps new_steps self.

Definition set_bpm (new_bpm : Z) (self : t) : outcome t unit :=
  if new_bpm <=? 0 then Raised ValueError self
  else
    let self := with_bpm new_bpm self in
    let self :=
      with_step_nb_samples
        (_compute_step_nb_samples (sample_rate self) new_bpm) self in
    Returned tt (_calculate_step_duration self).

(** What [n] processed steps in a row leave in the object:
    [_process_current_step] changes no field, the advance block moves the
    cursor. *)
Fixpoint ticks (n : nat) (self : t) : t :=
  match n with
  | O => self
  | S n' => ticks n' (_advance_step self)
  end.

(** States a track can be in: built by the constructor, then worked on by
    its public methods and by its own thread.  [_advance_step] also
    appears on its own, for a caller that takes the lock between the two
    locked blocks of the loop body. *)
Inductive reachable : t -> Prop :=
| reach_init wav_samples bpm sample_rate min_bpm :
    reachable (__init__ wav_samples bpm sample_rate min_bpm)
| reach_set_steps new_steps self :
    reachable self -> reachable (set_steps new_steps self)
| reach_set_bpm new_bpm self :
    reachable self -> reachable (state_of (set_bpm new_bpm self))
| reach_start now self :
    reachable self -> reachable (start now self)
| reach_stop self :
    reachable self -> reachable (stop self)
| reach_pass current_time self :
    reachable self -> reachable (_sequencer_loop current_time self).1
| reach_advance self :
    reachable self -> reachable (_advance_step self).

(** The dictionary returned by [get_pattern_info]. *)
Module PatternInfo.
Record t : Type := mk {
  current_step : Z;
  pattern_length : Z;
  active_steps : list Z;
  bpm : Z;
  step_duration : Q;
  is_running : bool
}.
End PatternInfo.

Definition get_pattern_info (self : t) : PatternInfo.t :=
  let active_steps :=
    (fun p : Z * Z => p.1)
      <$> List.filter (fun p : Z * Z => p.2 =? 1) (enumerate 0 (steps self)) in
  PatternInfo.mk (current_step_index self) (len (steps self)) active_steps
                 (bpm self) (step_duration self) (is_running self).

(** [get_bytes]: the literal of the source is [b"\\x00\\x00"], with
    escaped backslashes: the eight characters backslash, x, 0, 0,
    backslash, x, 0, 0. *)
Definition get_bytes (self : t) : list Byte.byte :=
  py_repeat_bytes
    [Byte.x5c; Byte.x78; Byte.x30; Byte.x30;
     Byte.x5c; Byte.x78; Byte.x30; Byte.x30]
    (step_nb_samples self).

(** The cursor points into the pattern, or rests at 0. *)
Definition cursor_valid (self : t) : Prop :=
  0 <= current_step_index self
  /\ (current_step_index self = 0
      \/ current_step_index self < len (steps self)).

(** The fields computed from the tempo and the samples agree with them. *)
Definition derived_fields_agree (self : t) : Prop :=
  nb_wav_samples self = len (wav_samples self)
  /\ step_nb_samples self
     = _compute_step_nb_samples (sample_rate self) (bpm self)
  /\ buffer_nb_samples self
     = _compute_step_nb_samples (sample_rate self) (min_bpm self)
  /\ step_duration self
     = (if 0 <? bpm self then 15 / inject_Z (bpm self) else 0)%Q.

End AudioSourceTrack.

(** ** audio_source_mixer.py *)

Module AudioSourceMixer.

(** The object held in [on_current_step_changed]; calling it is the
    effect [StepChanged]. *)
Variant callable : Type := NotificationSink.

Record t : Type := mk {
  sample_rate : Z;
  bpm : Z;
  min_bpm : Z;
  nb_steps : Z;
  current_step_index : Z;
  is_playing : bool;
  is_running : bool;
  stop_event : bool;
  sequencer_thread : option Q;
  on_current_step_changed : option callable;
  tracks : list AudioSourceTrack.t;
  step_duration : Q
}.

Definition with_bpm (v : Z) (self : t) : t :=
  mk (sample_rate self) v (min_bpm self) (nb_steps self)
     (current_step_index self) (is_playing self) (is_running self)
     (stop_event self) (sequencer_thread self)
     (on_current_step_changed self) (tracks self) (step_duration self).

Definition with_current_step_index (v : Z) (self : t) : t :=
  mk (sample_rate self) (bpm self) (min_bpm self) (nb_steps self)
     v (is_playing self) (is_running self)
     (stop_event self) (sequencer_thread self)
     (on_current_step_changed self) (tracks self) (step_duration self).

Definition with_is_playing (v : bool) (self : t) : t :=
  mk (sample_rate self) (bpm self) (min_bpm self) (nb_steps self)
     (current_step_index self) v (is_running self)
     (stop_event self) (sequencer_thread self)
     (on_current_step_changed self) (tracks self) (step_duration self).

Definition with_thread (running stopping : bool) (th : option Q) (self : t) : t :=
  mk (sample_rate self) (bpm self) (min_bpm self) (nb_steps self)
     (current_step_index self) (is_playing self) running
     stopping th
     (on_current_step_changed self) (tracks self) (step_duration self).

Definition with_tracks (v : list AudioSourceTrack.t) (self : t) : t :=
  mk (sample_rate self) (bpm self) (min_bpm self) (nb_steps self)
     (current_step_index self) (is_playing self) (is_running self)
     (stop_event self) (sequencer_thread self)
     (on_current_step_changed self) v (step_duration self).

Definition with_step_duration (v : Q) (self : t) : t :=
  mk (sample_rate self) (bpm self) (min_bpm self) (nb_steps self)
     (current_step_index self) (is_playing self) (is_running self)
     (stop_event self) (sequencer_thread self)
     (on_current_step_changed self) (tracks self) v.

(** One track per sample set, each given the pattern [(0,) * nb_steps]. *)
Definition _initialize_tracks
    (all_wav_samples : list (list Z)) (bpm sample_rate nb_steps min_bpm : Z)
    : list AudioSourceTrack.t :=
  (fun wav_samples =>
     let track := AudioSourceTrack.__init__ wav_samples bpm sample_rate min_bpm in
     let empty_pattern := py_repeat 0 nb_steps in
     AudioSourceTrack.set_steps empty_pattern track)
  <$> all_wav_samples.

Definition _calculate_step_duration (self : t) : t :=
  if 0 <? bpm self
  then with_step_duration (15 / inject_Z (bpm self))%Q self
  else with_step_duration 0%Q self.

Definition __init__
    (all_wav_samples : list (list Z)) (bpm sample_rate nb_steps : Z)
    (on_current_step_changed : option callable) (min_bpm : Z) : t :=
  let self :=
    mk sample_rate bpm min_bpm nb_steps 0 false false false None
       on_current_step_changed
       (_initialize_tracks all_wav_samples bpm sample_rate nb_steps min_bpm)
       0%Q in
  _calculate_step_duration self.

(** [start]: every thread created here reads the clock as [now] when it
    enters its loop. *)
Definition start (now : Q) (self : t) : t :=
  if is_running self then self
  else
    let self := with_thread true false (sequencer_thread self) self in
    let self := with_tracks (AudioSourceTrack.start now <$> tracks self) self in
    with_thread (is_running self) (stop_event self) (Some now) self.

Definition stop (self : t) : t :=
  if is_running self then
    let self := with_thread false true (sequencer_thread self) self in
    let self := with_is_playing false self in
    let self := with_tracks (AudioSourceTrack.stop <$> tracks self) self in
    with_thread (is_running self) (stop_event self) None self
  else self.

Definition _process_master_step (self : t) : t * list effect :=
  let effs :=
    match on_current_step_changed self with
    | Some _ =>
        let display_step_index := current_step_index self - 2 in
        let display_step_index :=
          if display_step_index <? 0
          then display_step_index + nb_steps self
          else display_step_index in
        [StepChanged display_step_index]
    | None => []
    end in
  let next := current_step_index self + 1 in
  (if nb_steps self <=? next
   then with_current_step_index 0 self
   else with_current_step_index next self,
   effs).

(** One pass through the body of the [while] of
    [_master_sequencer_loop]; [Some effs] when a master step was
    processed on this pass. *)
Definition _master_sequencer_loop (current_time : Q) (self : t)
    : t * option (list effect) :=
  match sequencer_thread self with
  | None => (self, None)
  | Some last_step_time =>
      if is_running self && negb (stop_event self) then
        if is_playing self
           && Qle_bool (step_duration self) (current_time - last_step_time)
        then
          let '(self, effs) := _process_master_step self in
          (with_thread (is_running self) (stop_event self)
                       (Some current_time) self,
           Some effs)
        else (self, None)
      else (with_thread (is_running self) (stop_event self) None self, None)
  end.

Definition set_steps (track_index : Z) (steps : list Z) (self : t) : t * bool :=
  if (len (tracks self) <=? track_index) || (track_index <? 0) then (self, false)
  else if negb (len steps =? nb_steps self) then (self, false)
  else
    (with_tracks
       (alter (AudioSourceTrack.set_steps steps) (Z.to_nat track_index)
              (tracks self))
       self,
     true).

(** [for track in self.tracks: track.set_bpm(bpm)]: the first exception
    leaves the loop, the tracks after it untouched. *)
Fixpoint _set_bpm_tracks (bpm : Z) (ts : list AudioSourceTrack.t)
    : list AudioSourceTrack.t * option exn :=
  match ts with
  | [] => ([], None)
  | track :: rest =>
      match AudioSourceTrack.set_bpm bpm track with
      | Returned _ track' =>
          let '(rest', e) := _set_bpm_tracks bpm rest in
          (track' :: rest', e)
      | Raised e track' => (track' :: rest, Some e)
      end
  end.

Definition set_bpm (new_bpm : Z) (self : t) : outcome t bool :=
  if new_bpm <? min_bpm self then Returned false self
  else
    let self := with_bpm new_bpm self in
    let self := _calculate_step_duration self in
    match _set_bpm_tracks new_bpm (tracks self) with
    | (ts, None) => Returned true (with_tracks ts self)
    | (ts, Some e) => Raised e (with_tracks ts self)
    end.

Definition audio_play (self : t) : t := with_is_playing true self.

Definition audio_stop (self : t) : t := with_is_playing false self.

(** What [n] master steps in a row leave in the object. *)
Fixpoint ticks (n : nat) (self : t) : t :=
  match n with
  | O => self
  | S n' => ticks n' (_process_master_step self).1
  end.

Definition MAX_16BITS : Z := 32767.
Definition MIN_16BITS : Z := -32768.

(** [sum_16bits]: [sum] adds from 0, left to right. *)
Definition sum_16bits (sample_values : list Z) : Z :=
  let total := foldl Z.add 0 sample_values in
  if MAX_16BITS <? total then MAX_16BITS
  else if total <? MIN_16BITS then MIN_16BITS
  else total.

(** The dictionary returned by [get_mixer_state]. *)
Module MixerState.
Record t : Type := mk {
  is_playing : bool;
  is_running : bool;
  bpm : Z;
  current_step : Z;
  nb_steps : Z;
  track_count : Z;
  track_patterns : list AudioSourceTrack.PatternInfo.t;
  step_duration : Q
}.
End MixerState.

Definition get_mixer_state (self : t) : MixerState.t :=
  let track_patterns := AudioSourceTrack.get_pattern_info <$> tracks self in
  MixerState.mk (is_playing self) (is_running self) (bpm self)
                (current_step_index self) (nb_steps self)
                (len (tracks self)) track_patterns (step_duration self).

(** [get_bytes]: here the literal is [b"\x00\x00"], two zero bytes. *)
Definition get_bytes (self : t) : list Byte.byte :=
  match tracks self with
  | track :: _ =>
      py_repeat_bytes [Byte.x00; Byte.x00]
                      (AudioSourceTrack.step_nb_samples track)
  | [] => py_repeat_bytes [Byte.x00; Byte.x00] 1024
  end.

End AudioSourceMixer.

(** ** The running program

    The mixer object together with the threads that work on it: the calls
    of the user interface and the passes of the sequencer loops, in the
    order in which they take the locks.  A pass of a loop is one event,
    although the body of the track loop takes the pattern lock twice; the
    states a track can be in between its two locked blocks are covered by
    [AudioSourceTrack.reachable]. *)

Module Session.

Import AudioSourceMixer.

Inductive event : Type :=
| CallSetSteps (track_index : Z) (steps : list Z)
| CallSetBpm (bpm : Z)
| CallAudioPlay
| CallAudioStop
| CallStart (now : Q)
| CallStop
| MasterPass (current_time : Q)
| TrackPass (i : nat) (current_time : Q).

(** Which thread processed a step. *)
Inductive origin : Type :=
| Master
| Track (i : nat).

Definition observation : Type := origin * list effect.

(** One event.  A call of [set_bpm] that raises hands the exception to its
    caller; the mixer stays as the call left it. *)
Definition exec (e : event) (m : t) : t * list observation :=
  match e with
  | CallSetSteps track_index steps => ((set_steps track_index steps m).1, [])
  | CallSetBpm bpm => (state_of (set_bpm bpm m), [])
  | CallAudioPlay => (audio_play m, [])
  | CallAudioStop => (audio_stop m, [])
  | CallStart now => (start now m, [])
  | CallStop => (stop m, [])
  | MasterPass current_time =>
      let '(m', tick) := _master_sequencer_loop current_time m in
      (m', match tick with Some effs => [(Master, effs)] | None => [] end)
  | TrackPass i current_time =>
      match tracks m !! i with
      | None => (m, [])
      | Some track =>
          let '(track', tick) :=
            AudioSourceTrack._sequencer_loop current_time track in
          (with_tracks (<[i := track']> (tracks m)) m,
           match tick with Some effs => [(Track i, effs)] | None => [] end)
      end
  end.

Fixpoint run (es : list event) (m : t) : t * list observation :=
  match es with
  | [] => (m, [])
  | e :: es' =>
      let '(m1, obs1) := exec e m in
      let '(m2, obs2) := run es' m1 in
      (m2, obs1 ++ obs2)
  end.

(** States a mixer can be in: built by the constructor, then driven by
    any sequence of events. *)
Definition reachable (m : t) : Prop :=
  exists all_wav_samples bpm sample_rate nb_steps callback min_bpm es,
    m = (run es (__init__ all_wav_samples bpm sample_rate nb_steps
                          callback min_bpm)).1.

(** The trigger decisions of track [i]: one entry per step it processed,
    [true] when the step called [_trigger_audio_sample]. *)
Definition trigger_decisions (i : nat) (obs : list observation) : list bool :=
  omap (fun o : observation =>
          match o.1 with
          | Track j =>
              if bool_decide (j = i)
              then Some (existsb is_trigger o.2)
              else None
          | Master => None
          end) obs.

(** The display indices handed to the notification sink. *)
Definition notifications (obs : list observation) : list Z :=
  obs ≫= (fun o : observation =>
            match o.1 with
            | Master =>
                omap (fun eff => match eff with
                                 | StepChanged d => Some d
                                 | _ => None
                                 end) o.2
            | Track _ => []
            end).

(** The two calls that write [is_playing] and nothing else. *)
Definition is_play_stop (e : event) : bool :=
  match e with
  | CallAudioPlay | CallAudioStop => true
  | _ => false
  end.

(** A schedule with its [audio_play] and [audio_stop] calls taken out. *)
Fixpoint without_play_stop (es : list event) : list event :=
  match es with
  | [] => []
  | e :: es' =>
      if is_play_stop e then without_play_stop es'
      else e :: without_play_stop es'
  end.

(** Two mixers that hold the same tracks and agree on every field the
    tracks and the calls of the user interface read; [is_playing] and the
    master cursor, clock and tempo are free to differ. *)
Definition same_for_tracks (m1 m2 : t) : Prop :=
  tracks m1 = tracks m2
  /\ nb_steps m1 = nb_steps m2
  /\ min_bpm m1 = min_bpm m2
  /\ is_running m1 = is_running m2.

(** Every track runs exactly when the mixer does, and the stop event of a
    running object is clear. *)
Definition lifecycle_coherent (m : t) : Prop :=
  (is_running m = true -> stop_event m = false)
  /\ Forall (fun track =>
               AudioSourceTrack.is_running track = is_running m
               /\ (AudioSourceTrack.is_running track = true ->
                   AudioSourceTrack.stop_event track = false))
            (tracks m).

(** The master cursor points at a step, or rests at 0. *)
Definition master_cursor_valid (m : t) : Prop :=
  0 <= current_step_index m
  /\ (current_step_index m = 0 \/ current_step_index m < nb_steps m).


(** Every pattern of the mixer holds only zeros. *)
Definition all_silent (m : t) : Prop :=
  Forall (fun track =>
            Forall (fun step => step = 0) (AudioSourceTrack.steps track))
         (tracks m).

End Session.

(** ** audio_source_one_shot.py

    The player is handed buffers of 16-bit samples; the conversion of a
    floating-point numpy array is left out.  Whether pygame builds and
    plays a sound without raising is an input of [set_wav_samples]. *)

Module AudioSourceOneShot.

(** Calls made on pygame. *)
Inductive device_call : Type :=
| SoundPlay (buffer : list Z)       (* [Sound(buffer=...)] then [.play()] *)
| SoundStop                         (* [current_sound.stop()] *)
| MixerSetVolume (volume : Q).      (* [pygame.mixer.set_volume(volume)] *)

Record t : Type := mk {
  current_sound : option (list Z);
  wav_samples : option (list Z);
  nb_wav_samples : Z;
  is_running : bool;
  chunk_nb_samples : Z;
  current_sample_index : Z
}.

Definition __init__ : t := mk None None 0 false 32 0.

Definition start (self : t) : t :=
  mk (current_sound self) (wav_samples self) (nb_wav_samples self) true
     (chunk_nb_samples self) (current_sample_index self).

Definition stop (self : t) : t * list device_call :=
  let self :=
    mk (current_sound self) (wav_samples self) (nb_wav_samples self) false
       (chunk_nb_samples self) (current_sample_index self) in
  match current_sound self with
  | Some _ =>
      (mk None (wav_samples self) (nb_wav_samples self) (is_running self)
          (chunk_nb_samples self) (current_sample_index self),
       [SoundStop])
  | None => (self, [])
  end.

(** [sound_ok]: pygame accepts the buffer and plays it; otherwise the
    [except] branch runs. *)
Definition set_wav_samples
    (new_samples : option (list Z)) (sound_ok : bool) (self : t)
    : t * list device_call :=
  if negb (is_running self) then (self, [])
  else
    match new_samples with
    | None => (self, [])
    | Some samples =>
        if sound_ok
        then (mk (Some samples) (Some samples) (len samples) (is_running self)
                 (chunk_nb_samples self) 0,
              [SoundPlay samples])
        else (mk None (Some samples) (len samples) (is_running self)
                 (chunk_nb_samples self) 0,
              [])
    end.

Definition get_bytes (self : t) : list Byte.byte :=
  py_repeat_bytes [Byte.x00; Byte.x00] (chunk_nb_samples self).

(** [busy]: the answer of [pygame.mixer.get_busy()]. *)
Definition is_playing (busy : bool) (self : t) : bool :=
  match current_sound self with
  | Some _ => busy
  | None => false
  end.

Definition set_volume (volume : Q) (self : t) : list device_call :=
  if Qle_bool 0 volume && Qle_bool volume 1 then [MixerSetVolume volume]
  else [].

(** Calls made on a player, and what a sequence of them does. *)
Inductive call : Type :=
| Start
| Stop
| SetWavSamples (new_samples : option (list Z)) (sound_ok : bool)
| SetVolume (volume : Q).

Definition exec (c : call) (self : t) : t * list device_call :=
  match c with
  | Start => (start self, [])
  | Stop => stop self
  | SetWavSamples new_samples sound_ok =>
      set_wav_samples new_samples sound_ok self
  | SetVolume volume => (self, set_volume volume self)
  end.

Fixpoint run (cs : list call) (self : t) : t * list device_call :=
  match cs with
  | [] => (self, [])
  | c :: cs' =>
      let '(self1, out1) := exec c self in
      let '(self2, out2) := run cs' self1 in
      (self2, out1 ++ out2)
  end.

(** The buffers played, in order, among the calls made on pygame. *)
Definition played (out : list device_call) : list (list Z) :=
  omap (fun c => match c with
                 | SoundPlay buffer => Some buffer
                 | _ => None
                 end) out.

(** The buffers handed to [set_wav_samples] that pygame accepts. *)
Definition accepted (cs : list call) : list (list Z) :=
  omap (fun c => match c with
                 | SetWavSamples (Some samples) true => Some samples
                 | _ => None
                 end) cs.

End AudioSourceOneShot.

(** ** audio_engine.py *)

Module AudioEngine.

Definition NB_CHANNELS : Z := 1.
Definition SAMPLE_RATE : Z := 44100.
Definition BUFFER_SIZE : Z := 1024.

Record t : Type := mk {
  audio_source_one_shot : AudioSourceOneShot.t
}.

Definition __init__ : t :=
  mk (AudioSourceOneShot.start AudioSourceOneShot.__init__).

Definition play_sound (wav_samples : option (list Z)) (sound_ok : bool)
    (self : t) : t * list AudioSourceOneShot.device_call :=
  let '(one_shot, out) :=
    AudioSourceOneShot.set_wav_samples wav_samples sound_ok
                                       (audio_source_one_shot self) in
  (mk one_shot, out).

(** [create_track]: the track is built with the default [min_bpm] of 60
    and started at once. *)
Definition create_track (wav_samples : list Z) (bpm : Z) (now : Q)
    : AudioSourceTrack.t :=
  AudioSourceTrack.start now
    (AudioSourceTrack.__init__ wav_samples bpm SAMPLE_RATE 60).

Definition create_mixer
    (all_wav_samples : list (list Z)) (bpm nb_steps : Z)
    (on_current_step_changed : option AudioSourceMixer.callable)
    (min_bpm : Z) (now : Q) : AudioSourceMixer.t :=
  AudioSourceMixer.start now
    (AudioSourceMixer.__init__ all_wav_samples bpm SAMPLE_RATE nb_steps
                               on_current_step_changed min_bpm).

Definition cleanup (self : t) : t * list AudioSourceOneShot.device_call :=
  let '(one_shot, out) :=
    AudioSourceOneShot.stop (audio_source_one_shot self) in
  (mk one_shot, out).

End AudioEngine.

(** ** sound_kit_service.py

    A [Sound] is taken as loaded: reading the WAV file is outside the
    model. *)

Module SoundKitService.

Record Sound : Type := mkSound {
  filename : String.string;
  displayname : String.string;
  nb_samples : Z;
  samples : list Z
}.

(** A kit is its tuple [sounds]. *)
Definition SoundKit : Type := list Sound.

Definition get_nb_tracks (soundkit : SoundKit) : Z := len soundkit.

Definition get_all_samples (soundkit : SoundKit) : list (list Z) :=
  samples <$> soundkit.

(** What [get_sound_at] gives: a sound, [None], or an exception. *)
Inductive lookup : Type :=
| ReturnedSound (sound : Sound)
| ReturnedNone
| RaisedIndexError.

Definition get_sound_at (index : Z) (soundkit : SoundKit) : lookup :=
  if len soundkit <=? index then ReturnedNone
  else
    match py_getitem soundkit index with
    | Some sound => ReturnedSound sound
    | None => RaisedIndexError
    end.

End SoundKitService.

(** ** play_indicator.py

    The widget is its list of lights; the Kivy widget tree is left out. *)

Module PlayIndicatorWidget.

(** The image shown by a light. *)
Inductive light : Type :=
| indicator_light_on
| indicator_light_off.

Record t : Type := mk {
  nb_steps : Z;
  lights : list light
}.

(** The class attributes: no step, no light. *)
Definition initial : t := mk 0 [].

Definition set_current_step_index (index : Z) (self : t) : t :=
  if len (lights self) <=? index then self
  else
    mk (nb_steps self)
       (imap (fun i _ =>
                if Z.of_nat i =? index then indicator_light_on
                else indicator_light_off)
             (lights self)).

Definition set_nb_steps (new_nb_steps : Z) (self : t) : t :=
  if new_nb_steps =? nb_steps self then self
  else mk new_nb_steps (py_repeat indicator_light_off new_nb_steps).

(** The display fed with a series of step indices, one call each. *)
Definition show_all (indices : list Z) (self : t) : t :=
  foldl (fun widget index => set_current_step_index index widget) self indices.

End PlayIndicatorWidget.

(** ** track.py

    The widget is its row of step buttons; a button is its toggle state
    and its background image. *)

Module TrackWidget.

Inductive button_state : Type :=
| down
| normal.

Inductive background : Type :=
| step_normal1
| step_normal2.

Record TrackStepButton : Type := mkButton {
  state : button_state;
  background_normal : background
}.

Record t : Type := mk {
  nb_steps : Z;
  step_buttons : list TrackStepButton
}.

(** [range(0, n)] *)
Definition py_range (n : Z) : list Z := seqZ 0 n.

(** The buttons are created released; [int(i/4) % 2] picks the image. *)
Definition __init__ (nb_steps : Z) : t :=
  mk nb_steps
     ((fun i =>
         mkButton normal
                  (if (Z.quot i 4) mod 2 =? 0 then step_normal1
                   else step_normal2))
      <$> py_range nb_steps).

(** The loop of [on_step_button_state]: [None] is the [IndexError] of
    [self.step_buttons[i]]. *)
Definition current_pattern (self : t) : option (list Z) :=
  mapM (fun i =>
          button ← py_getitem (step_buttons self) i;
          Some (match state button with
                | down => 1
                | normal => 0
                end))
       (py_range (nb_steps self)) .

Definition on_step_button_state (self : t) (track_source : AudioSourceTrack.t)
    : outcome AudioSourceTrack.t unit :=
  match current_pattern self with
  | Some steps => Returned tt (AudioSourceTrack.set_steps steps track_source)
  | None => Raised IndexError track_source
  end.

(** The user presses step button [i]: the toggle button changes state. *)
Definition toggle (i : nat) (self : t) : t :=
  mk (nb_steps self)
     (alter (fun button =>
               mkButton (match state button with
                         | down => normal
                         | normal => down
                         end)
                        (background_normal button))
            i (step_buttons self)).

(** A widget as built, then after the user pressed the step buttons
    [presses], first press first. *)
Definition after_presses (presses : list nat) (nb_steps : Z) : t :=
  foldl (fun widget i => toggle i widget) (__init__ nb_steps) presses.

End TrackWidget.

(** ** Concrete objects used to exercise the model *)

Module Examples.

(** Two tracks, four steps, 120 BPM, floor 80 BPM. *)
Definition drum_machine : AudioSourceMixer.t :=
  AudioSourceMixer.__init__ [[100; -100]; [50; 60; 70]] 120 44100 4
                            (Some AudioSourceMixer.NotificationSink) 80.

(** A mixer whose sequence has a single step. *)
Definition one_step_machine : AudioSourceMixer.t :=
  AudioSourceMixer.__init__ [[100; -100]] 120 44100 1
                            (Some AudioSourceMixer.NotificationSink) 80.

(** A mixer configured with a tempo floor of 0. *)
Definition no_floor_machine : AudioSourceMixer.t :=
  AudioSourceMixer.__init__ [[100; -100]] 120 44100 4
                            (Some AudioSourceMixer.NotificationSink) 0.

(** Started at clock reading 0 and set playing. *)
Definition playing (m : AudioSourceMixer.t) : AudioSourceMixer.t :=
  AudioSourceMixer.audio_play (AudioSourceMixer.start 0%Q m).


(** The end-to-end scenario: two tracks, four steps, 120 BPM, patterns
    [1,0,1,0] and [0,1,0,0], started at clock reading 0. *)
Definition scenario_setup : list Session.event :=
  [Session.CallSetSteps 0 [1; 0; 1; 0];
   Session.CallSetSteps 1 [0; 1; 0; 0];
   Session.CallStart 0%Q].

(** Four step durations of 0.125 s, every loop passing once per step. *)
Definition scenario_passes : list Session.event :=
  [Session.MasterPass (1 # 8); Session.TrackPass 0 (1 # 8); Session.TrackPass 1 (1 # 8);
   Session.MasterPass (2 # 8); Session.TrackPass 0 (2 # 8); Session.TrackPass 1 (2 # 8);
   Session.MasterPass (3 # 8); Session.TrackPass 0 (3 # 8); Session.TrackPass 1 (3 # 8);
   Session.MasterPass (4 # 8); Session.TrackPass 0 (4 # 8); Session.TrackPass 1 (4 # 8)].

Definition kick : AudioSourceTrack.t :=
  AudioSourceTrack.set_steps [1; 0; 1; 0]
    (AudioSourceTrack.__init__ [100; -100] 120 44100 60).

Definition muted : AudioSourceTrack.t :=
  AudioSourceTrack.set_steps [0; 0; 0; 0]
    (AudioSourceTrack.__init__ [100; -100] 120 44100 60).

(** The scenario played to its end, and the mixer it leaves. *)
Definition performance : list Session.event :=
  scenario_setup ++ Session.CallAudioPlay :: scenario_passes.

Definition played_machine : AudioSourceMixer.t :=
  (Session.run performance drum_machine).1.

Import Stdlib.Strings.String.

(** A kit of two sounds. *)
Definition kit : SoundKitService.SoundKit :=
  [SoundKitService.mkSound "sounds/kit1/kick.wav"%string "KICK"%string
                           2 [100; -100];
   SoundKitService.mkSound "sounds/kit1/snare.wav"%string "SNARE"%string
                           3 [50; 60; 70]].

(** An indicator with four lights. *)
Definition four_lights : PlayIndicatorWidget.t :=
  PlayIndicatorWidget.set_nb_steps 4 PlayIndicatorWidget.initial.

End Examples.

(** * Properties *)

(** ** Field bookkeeping *)

Lemma py_getitem_in_range {A} (l : list A) (i : Z) :
  0 <= i < len l -> is_Some (py_getitem l i).
Proof.
  intros [Hlo Hhi]. unfold py_getitem.
  destruct (Z.leb_spec 0 i) as [_ | Hneg]; [| lia].
  apply lookup_lt_is_Some. unfold len in Hhi. lia.
Qed.

Lemma py_repeat_len {A} (x : A) (n : Z) : 0 <= n -> len (py_repeat x n) = n.
Proof.
  intros Hn. unfold len, py_repeat. rewrite length_replicate. lia.
Qed.

Section TrackFacts.

Import AudioSourceTrack.

Lemma track_init_steps wav b sr mb :
  steps (__init__ wav b sr mb) = []
  /\ current_step_index (__init__ wav b sr mb) = 0.
Proof.
  unfold __init__, _calculate_step_duration. simpl.
  destruct (0 <? b), (b =? 0); simpl;
    repeat match goal with |- context [if ?c then _ else _] => destruct c end;
    split; reflexivity.
Qed.

Lemma track_set_steps_steps new_steps self :
  steps (set_steps new_steps self) = new_steps.
Proof. unfold set_steps. destruct (_ =? _); reflexivity. Qed.

Lemma track_set_bpm_steps new_bpm self :
  steps (state_of (set_bpm new_bpm self)) = steps self
  /\ current_step_index (state_of (set_bpm new_bpm self)) = current_step_index self.
Proof.
  unfold set_bpm. destruct (new_bpm <=? 0); simpl; [split; reflexivity |].
  unfold _calculate_step_duration. simpl.
  destruct (0 <? new_bpm); split; reflexivity.
Qed.

Lemma track_start_steps now self :
  steps (start now self) = steps self
  /\ current_step_index (start now self) = current_step_index self.
Proof. unfold start. destruct (is_running self); split; reflexivity. Qed.

Lemma track_stop_steps self :
  steps (stop self) = steps self
  /\ current_step_index (stop self) = current_step_index self.
Proof. unfold stop. destruct (is_running self); split; reflexivity. Qed.

Lemma track_advance_steps self : steps (_advance_step self) = steps self.
Proof. unfold _advance_step. destruct (_ <=? _); reflexivity. Qed.

Lemma track_pass_steps now self :
  steps (_sequencer_loop now self).1 = steps self.
Proof.
  unfold _sequencer_loop.
  destruct (playback_thread self); [| reflexivity].
  destruct (is_running self && negb (stop_event self)); [| reflexivity].
  destruct (Qle_bool _ _); [| reflexivity].
  destruct (_process_current_step self) as [effs [e |]]; simpl; [reflexivity |].
  rewrite track_advance_steps. reflexivity.
Qed.

(** The cursor after the advance block, whatever it was before. *)
Lemma track_advance_cursor self :
  0 <= current_step_index self ->
  0 <= current_step_index (_advance_step self)
  /\ (current_step_index (_advance_step self) = 0
      \/ current_step_index (_advance_step self) < len (steps self)).
Proof.
  intros Hc. unfold _advance_step.
  destruct (Z.leb_spec (len (steps self)) (current_step_index self + 1));
    simpl; lia.
Qed.

Lemma track_pass_cursor_nonneg now self :
  0 <= current_step_index self ->
  0 <= current_step_index (_sequencer_loop now self).1.
Proof.
  intros Hc. unfold _sequencer_loop.
  destruct (playback_thread self); [| exact Hc].
  destruct (is_running self && negb (stop_event self)); [| exact Hc].
  destruct (Qle_bool _ _); [| exact Hc].
  destruct (_process_current_step self) as [effs [e |]]; simpl; [exact Hc |].
  apply (track_advance_cursor
           (with_thread (is_running self) (stop_event self) (Some now) self)).
  exact Hc.
Qed.

(** The cursor of a reachable track never goes below zero. *)
Lemma track_reachable_cursor_nonneg self :
  reachable self -> 0 <= current_step_index self.
Proof.
  induction 1 as [wav b sr mb | ns self _ IH | nb self _ IH | now self _ IH
                  | self _ IH | now self _ IH | self _ IH].
  - destruct (track_init_steps wav b sr mb) as [_ ->]. lia.
  - unfold set_steps. destruct (_ =? _); simpl; [exact IH | lia].
  - destruct (track_set_bpm_steps nb self) as [_ ->]. exact IH.
  - destruct (track_start_steps now self) as [_ ->]. exact IH.
  - destruct (track_stop_steps self) as [_ ->]. exact IH.
  - apply track_pass_cursor_nonneg. exact IH.
  - apply track_advance_cursor. exact IH.
Qed.

End TrackFacts.

(** ** The step decision of a track *)

Section TrackStep.

Import AudioSourceTrack.

Lemma no_steps_activated_without_one self :
  Forall (fun step => step <> 1) (steps self) ->
  _no_steps_activated self = true.
Proof.
  intros Hall. unfold _no_steps_activated.
  destruct (len (steps self) =? 0); [reflexivity |].
  apply negb_true_iff, not_true_iff_false. intros Hex.
  apply existsb_exists in Hex as (step & Hin & Heq).
  apply Z.eqb_eq in Heq. rewrite Forall_forall in Hall.
  apply (Hall step); [| exact Heq].
  apply list_elem_of_In. exact Hin.
Qed.

Lemma trigger_has_no_subscript self i :
  Subscript i ∉ _trigger_audio_sample self.
Proof.
  unfold _trigger_audio_sample. intros Hin.
  apply elem_of_cons in Hin as [Heq | Hin]; [discriminate |].
  destruct (_ && _).
  - apply elem_of_cons in Hin as [Heq | Hin]; [discriminate |].
    apply elem_of_nil in Hin. exact Hin.
  - apply elem_of_nil in Hin. exact Hin.
Qed.

(** With a cursor that is not negative the subscript is always inside the
    tuple: the guard of [_process_current_step] bounds it from above. *)
Lemma process_current_step_guarded self :
  0 <= current_step_index self ->
  exists effs,
    _process_current_step self = (effs, None)
    /\ forall i, Subscript i ∈ effs -> 0 <= i < len (steps self).
Proof.
  intros Hc. unfold _process_current_step.
  destruct (negb (_no_steps_activated self)
            && (current_step_index self <? len (steps self))) eqn:Hguard.
  - apply andb_true_iff in Hguard as [_ Hlt]. apply Z.ltb_lt in Hlt.
    destruct (py_getitem_in_range (steps self) (current_step_index self))
      as [step Hstep]; [lia |].
    rewrite Hstep. eexists. split; [reflexivity |].
    intros i Hin. apply elem_of_cons in Hin as [Heq | Hin].
    + injection Heq as ->. lia.
    + destruct (step =? 1).
      * exfalso. exact (trigger_has_no_subscript self i Hin).
      * apply elem_of_nil in Hin. contradiction.
  - exists []. split; [reflexivity |].
    intros i Hin. apply elem_of_nil in Hin. contradiction.
Qed.

(** A pass of the loop processes at most one step, and its effects are
    those of [_process_current_step]. *)
Lemma pass_effects now self effs :
  0 <= current_step_index self ->
  (_sequencer_loop now self).2 = Some effs ->
  effs = (_process_current_step self).1.
Proof.
  intros Hc. unfold _sequencer_loop.
  destruct (playback_thread self); [| discriminate].
  destruct (is_running self && negb (stop_event self)); [| discriminate].
  destruct (Qle_bool _ _); [| discriminate].
  destruct (process_current_step_guarded self Hc) as (effs' & -> & _).
  simpl. congruence.
Qed.

End TrackStep.

(** C9.  A track whose pattern holds no active flag (every entry is 0, the
    empty pattern included) does not trigger its sample, wherever its
    cursor stands: processing the current step has no effect at all, and a
    pass of the sequencer loop either processes no step or processes one
    without any effect. *)
Theorem silent_pattern_never_triggers (self : AudioSourceTrack.t) :
  Forall (fun step => step = 0) (AudioSourceTrack.steps self) ->
  AudioSourceTrack._process_current_step self = ([], None)
  /\ forall now,
       (AudioSourceTrack._sequencer_loop now self).2 = None
       \/ (AudioSourceTrack._sequencer_loop now self).2 = Some [].
Proof.
  intros Hzero.
  assert (Hquiet : AudioSourceTrack._process_current_step self = ([], None)).
  { unfold AudioSourceTrack._process_current_step.
    rewrite no_steps_activated_without_one; [reflexivity |].
    eapply Forall_impl; [exact Hzero |]. simpl. intros step ->. lia. }
  split; [exact Hquiet |].
  intros now. unfold AudioSourceTrack._sequencer_loop.
  destruct (AudioSourceTrack.playback_thread self); [| left; reflexivity].
  destruct (_ && _); [| left; reflexivity].
  destruct (Qle_bool _ _); [| left; reflexivity].
  rewrite Hquiet. right. reflexivity.
Qed.

(** C10.  In every state a track can reach -- the empty pattern of a fresh
    track included -- processing the current step raises nothing, and the
    only index it subscripts the pattern with lies in [0, len(steps)). *)
Theorem process_current_step_in_bounds (self : AudioSourceTrack.t) :
  AudioSourceTrack.reachable self ->
  exists effs,
    AudioSourceTrack._process_current_step self = (effs, None)
    /\ forall i, Subscript i ∈ effs ->
                 0 <= i < len (AudioSourceTrack.steps self).
Proof.
  intros Hreach. apply process_current_step_guarded.
  apply track_reachable_cursor_nonneg. exact Hreach.
Qed.

(** ** Cursors *)








Lemma silent_pattern_never_triggers_witness :
  AudioSourceTrack._process_current_step Examples.muted = ([], None)
  /\ forall now,
       (AudioSourceTrack._sequencer_loop now Examples.muted).2 = None
       \/ (AudioSourceTrack._sequencer_loop now Examples.muted).2 = Some [].
Proof.
  apply (silent_pattern_never_triggers Examples.muted).
  vm_compute. repeat constructor.
Defined.

Lemma process_current_step_in_bounds_witness :
  exists effs,
    AudioSourceTrack._process_current_step
      (AudioSourceTrack._advance_step Examples.kick) = (effs, None)
    /\ forall i, Subscript i ∈ effs ->
                 0 <= i < len (AudioSourceTrack.steps
                                 (AudioSourceTrack._advance_step Examples.kick)).
Proof.
  apply (process_current_step_in_bounds
           (AudioSourceTrack._advance_step Examples.kick)).
  apply AudioSourceTrack.reach_advance, AudioSourceTrack.reach_set_steps,
        AudioSourceTrack.reach_init.
Defined.


(** ** The master step *)

Section MasterStep.

Import AudioSourceMixer.

Lemma lag_wrap (s n : Z) :
  2 <= n -> 0 <= s < n ->
  (if s - 2 <? 0 then s - 2 + n else s - 2) = (s - 2) mod n.
Proof.
  intros Hn Hs. destruct (Z.ltb_spec (s - 2) 0).
  - apply Z.mod_unique_pos with (q := -1); lia.
  - rewrite Z.mod_small; lia.
Qed.

Lemma process_master_step_notifies self sink :
  on_current_step_changed self = Some sink ->
  2 <= nb_steps self ->
  0 <= current_step_index self < nb_steps self ->
  (_process_master_step self).2
  = [StepChanged ((current_step_index self - 2) mod nb_steps self)].
Proof.
  intros Hsink Hn Hs. unfold _process_master_step. rewrite Hsink. simpl.
  rewrite lag_wrap by assumption. reflexivity.
Qed.

(** A pass on which a master step is processed does to the object what
    [_process_master_step] does, and records the clock. *)
Lemma master_pass_processed now self effs :
  (_master_sequencer_loop now self).2 = Some effs ->
  is_playing self = true
  /\ effs = (_process_master_step self).2
  /\ current_step_index (_master_sequencer_loop now self).1
     = current_step_index (_process_master_step self).1.
Proof.
  unfold _master_sequencer_loop.
  destruct (sequencer_thread self); [| discriminate].
  destruct (is_running self && negb (stop_event self)); [| discriminate].
  destruct (is_playing self); [| discriminate].
  destruct (Qle_bool _ _); [| discriminate].
  destruct (_process_master_step self) as [self' effs'] eqn:Hstep.
  simpl. intros [= <-]. repeat split; reflexivity.
Qed.

End MasterStep.

(** C1, as the code has it.  With at least two steps, a master tick that
    fires while [is_playing] is true, at master step [s] in [0, N), calls
    the notification sink once, with [(s - 2) mod N]: [N - 2] at [s = 0],
    [N - 1] at [s = 1], and [0] at [s = 2]. *)
Theorem display_index_lags_two_steps
    (m : AudioSourceMixer.t) (now last_step_time : Q)
    (sink : AudioSourceMixer.callable) :
  2 <= AudioSourceMixer.nb_steps m ->
  0 <= AudioSourceMixer.current_step_index m < AudioSourceMixer.nb_steps m ->
  AudioSourceMixer.on_current_step_changed m = Some sink ->
  AudioSourceMixer.sequencer_thread m = Some last_step_time ->
  AudioSourceMixer.is_running m = true ->
  AudioSourceMixer.stop_event m = false ->
  AudioSourceMixer.is_playing m = true ->
  Qle_bool (AudioSourceMixer.step_duration m) (now - last_step_time) = true ->
  let s := AudioSourceMixer.current_step_index m in
  let N := AudioSourceMixer.nb_steps m in
  (AudioSourceMixer._master_sequencer_loop now m).2
  = Some [StepChanged ((s - 2) mod N)]
  /\ (s = 0 -> (s - 2) mod N = N - 2)
  /\ (s = 1 -> (s - 2) mod N = N - 1)
  /\ (s = 2 -> (s - 2) mod N = 0).
Proof.
  intros HN Hs Hsink Hth Hrun Hstop Hplay Hdue s N.
  split.
  - pose proof (process_master_step_notifies m sink Hsink HN Hs) as Heffs.
    unfold AudioSourceMixer._master_sequencer_loop.
    rewrite Hth, Hrun, Hstop, Hplay, Hdue.
    destruct (AudioSourceMixer._process_master_step m) as [m' effs].
    simpl in Heffs. subst effs. reflexivity.
  - subst s N. repeat split; intros Heq; rewrite Heq in *.
    + symmetry. apply Z.mod_unique_pos with (q := -1); lia.
    + symmetry. apply Z.mod_unique_pos with (q := -1); lia.
    + apply Z.mod_0_l. lia.
Qed.

Lemma display_index_lags_two_steps_witness :
  (AudioSourceMixer._master_sequencer_loop
     1%Q (Examples.playing Examples.drum_machine)).2
  = Some [StepChanged ((0 - 2) mod 4)].
Proof.
  apply (display_index_lags_two_steps
           (Examples.playing Examples.drum_machine) 1%Q 0%Q
           AudioSourceMixer.NotificationSink);
    vm_compute; first [reflexivity | discriminate | split; congruence].
Defined.

(** C1 fails for a sequence of one step: at [N = 1], [s = 0] the sink is
    called with [-1], while [(0 - 2) mod 1] is [0]. *)
Lemma display_index_one_step_counterexample :
  let m := Examples.playing Examples.one_step_machine in
  AudioSourceMixer.nb_steps m = 1
  /\ AudioSourceMixer.current_step_index m = 0
  /\ AudioSourceMixer.is_playing m = true
  /\ (AudioSourceMixer._master_sequencer_loop 1%Q m).2
     = Some [StepChanged (-1)]
  /\ (AudioSourceMixer._master_sequencer_loop 1%Q m).2
     <> Some [StepChanged ((AudioSourceMixer.current_step_index m - 2)
                             mod AudioSourceMixer.nb_steps m)].
Proof.
  vm_compute. repeat split; discriminate.
Qed.

(** C2.  While [is_playing] is false a pass of the master timing loop
    leaves [current_step_index] where it is and processes no master step,
    so the notification sink is not called. *)
Theorem stopped_master_cursor_is_frozen
    (m : AudioSourceMixer.t) (now : Q) :
  AudioSourceMixer.is_playing m = false ->
  AudioSourceMixer.current_step_index
    (AudioSourceMixer._master_sequencer_loop now m).1
  = AudioSourceMixer.current_step_index m
  /\ (AudioSourceMixer._master_sequencer_loop now m).2 = None
  /\ (Session.exec (Session.MasterPass now) m).2 = [].
Proof.
  intros Hstopped.
  assert (Hpass :
    AudioSourceMixer.current_step_index
      (AudioSourceMixer._master_sequencer_loop now m).1
    = AudioSourceMixer.current_step_index m
    /\ (AudioSourceMixer._master_sequencer_loop now m).2 = None).
  { unfold AudioSourceMixer._master_sequencer_loop. rewrite Hstopped.
    destruct (AudioSourceMixer.sequencer_thread m); [| split; reflexivity].
    destruct (_ && _); split; reflexivity. }
  destruct Hpass as [Hcur Hnone]. repeat split; [exact Hcur | exact Hnone |].
  unfold Session.exec.
  destruct (AudioSourceMixer._master_sequencer_loop now m) as [m' tick].
  simpl in Hnone. rewrite Hnone. reflexivity.
Qed.

Lemma stopped_master_cursor_is_frozen_witness :
  AudioSourceMixer.current_step_index
    (AudioSourceMixer._master_sequencer_loop
       1%Q (AudioSourceMixer.start 0%Q Examples.drum_machine)).1
  = 0.
Proof.
  apply (stopped_master_cursor_is_frozen
           (AudioSourceMixer.start 0%Q Examples.drum_machine) 1%Q).
  reflexivity.
Defined.

(** ** Patterns and tempo through the mixer *)

Section MixerSetters.

Import AudioSourceMixer.

Lemma patterns_after_alter new_steps :
  forall (ts : list AudioSourceTrack.t) (i : nat),
  AudioSourceTrack.steps <$> alter (AudioSourceTrack.set_steps new_steps) i ts
  = <[i := new_steps]> (AudioSourceTrack.steps <$> ts).
Proof.
  induction ts as [| track ts IH]; intros [| i]; try reflexivity.
  cbn [fmap list_fmap alter list_alter insert list_insert].
  f_equal. apply IH.
Qed.



End MixerSetters.




(** C5.  A tempo of 0 or less makes [set_bpm] of a track raise
    [ValueError] with the track exactly as it was ([bpm], [step_duration]
    and [step_nb_samples] included); a tempo below [min_bpm] makes
    [set_bpm] of the mixer return [False] with the mixer, and so every
    track in it, exactly as it was. *)
Theorem rejected_tempo_changes_nothing
    (track : AudioSourceTrack.t) (m : AudioSourceMixer.t)
    (track_bpm mixer_bpm : Z) :
  track_bpm <= 0 ->
  mixer_bpm < AudioSourceMixer.min_bpm m ->
  AudioSourceTrack.set_bpm track_bpm track = Raised ValueError track
  /\ AudioSourceMixer.set_bpm mixer_bpm m = Returned false m.
Proof.
  intros Htrack Hmixer. split.
  - unfold AudioSourceTrack.set_bpm.
    destruct (Z.leb_spec track_bpm 0); [reflexivity | lia].
  - unfold AudioSourceMixer.set_bpm.
    destruct (Z.ltb_spec mixer_bpm (AudioSourceMixer.min_bpm m));
      [reflexivity | lia].
Qed.

Lemma rejected_tempo_changes_nothing_witness :
  AudioSourceTrack.set_bpm 0 Examples.kick = Raised ValueError Examples.kick
  /\ AudioSourceMixer.set_bpm 79 Examples.drum_machine
     = Returned false Examples.drum_machine.
Proof.
  apply (rejected_tempo_changes_nothing
           Examples.kick Examples.drum_machine 0 79).
  - lia.
  - vm_compute. reflexivity.
Defined.

(** C4.  [set_steps] of the mixer returns [False] and leaves the mixer as
    it was when the track index is out of bounds or the pattern length
    differs from [nb_steps]; otherwise it returns [True], the track at
    that index holds the new pattern, and the pattern of every other track
    is the one it had. *)
Theorem mixer_set_steps_validates
    (m : AudioSourceMixer.t) (track_index : Z) (steps : list Z) :
  (track_index < 0
   \/ len (AudioSourceMixer.tracks m) <= track_index
   \/ len steps <> AudioSourceMixer.nb_steps m ->
   AudioSourceMixer.set_steps track_index steps m = (m, false))
  /\ (0 <= track_index < len (AudioSourceMixer.tracks m) ->
      len steps = AudioSourceMixer.nb_steps m ->
      (AudioSourceMixer.set_steps track_index steps m).2 = true
      /\ (AudioSourceTrack.steps
            <$> AudioSourceMixer.tracks
                  (AudioSourceMixer.set_steps track_index steps m).1)
           !! Z.to_nat track_index = Some steps
      /\ forall j, j <> Z.to_nat track_index ->
           AudioSourceMixer.tracks
             (AudioSourceMixer.set_steps track_index steps m).1 !! j
           = AudioSourceMixer.tracks m !! j).
Proof.
  unfold AudioSourceMixer.set_steps. split.
  - intros Hbad.
    destruct (Z.leb_spec (len (AudioSourceMixer.tracks m)) track_index);
      [reflexivity |].
    destruct (Z.ltb_spec track_index 0); [reflexivity |]. simpl.
    destruct (Z.eqb_spec (len steps) (AudioSourceMixer.nb_steps m));
      [lia | reflexivity].
  - intros Hidx Hlen.
    destruct (Z.leb_spec (len (AudioSourceMixer.tracks m)) track_index); [lia |].
    destruct (Z.ltb_spec track_index 0); [lia |]. simpl.
    destruct (Z.eqb_spec (len steps) (AudioSourceMixer.nb_steps m)); [| lia].
    simpl. split; [reflexivity |]. split.
    + rewrite patterns_after_alter. apply list_lookup_insert_eq.
      rewrite length_fmap. unfold len in *. lia.
    + intros j Hj. apply list_lookup_alter_ne. congruence.
Qed.

Lemma mixer_set_steps_validates_witness :
  AudioSourceMixer.set_steps 2 [1; 0; 1; 0] Examples.drum_machine
  = (Examples.drum_machine, false)
  /\ AudioSourceMixer.set_steps 0 [1; 0; 1] Examples.drum_machine
     = (Examples.drum_machine, false)
  /\ (AudioSourceMixer.set_steps 1 [0; 1; 0; 0] Examples.drum_machine).2 = true.
Proof.
  split; [| split].
  - apply (proj1 (mixer_set_steps_validates Examples.drum_machine 2 [1; 0; 1; 0])).
    right. left. vm_compute. discriminate.
  - apply (proj1 (mixer_set_steps_validates Examples.drum_machine 0 [1; 0; 1])).
    right. right. vm_compute. discriminate.
  - apply (proj2 (mixer_set_steps_validates Examples.drum_machine 1 [0; 1; 0; 0])).
    + vm_compute. split; [discriminate | reflexivity].
    + reflexivity.
Defined.

(** ** What the mixer leaves alone *)

Section MixerFrames.

Import AudioSourceMixer.

Lemma calculate_step_duration_keeps self :
  nb_steps (_calculate_step_duration self) = nb_steps self
  /\ tracks (_calculate_step_duration self) = tracks self
  /\ min_bpm (_calculate_step_duration self) = min_bpm self
  /\ is_running (_calculate_step_duration self) = is_running self.
Proof.
  unfold _calculate_step_duration. destruct (0 <? bpm self);
    repeat split; reflexivity.
Qed.

Lemma init_fields wavs b sr n cb mb :
  nb_steps (__init__ wavs b sr n cb mb) = n
  /\ tracks (__init__ wavs b sr n cb mb) = _initialize_tracks wavs b sr n mb.
Proof.
  unfold __init__.
  destruct (calculate_step_duration_keeps
              (mk sr b mb n 0 false false false None cb
                  (_initialize_tracks wavs b sr n mb) 0%Q))
    as (-> & -> & _).
  split; reflexivity.
Qed.

Lemma set_bpm_keeps_nb_steps new_bpm m :
  nb_steps (state_of (set_bpm new_bpm m)) = nb_steps m.
Proof.
  unfold set_bpm. destruct (new_bpm <? min_bpm m); [reflexivity |].
  destruct (_set_bpm_tracks _ _) as [ts [e |]]; simpl;
    apply (calculate_step_duration_keeps (with_bpm new_bpm m)).
Qed.

Lemma set_bpm_tracks_of new_bpm m :
  tracks (state_of (set_bpm new_bpm m))
  = if new_bpm <? min_bpm m then tracks m
    else (_set_bpm_tracks new_bpm (tracks m)).1.
Proof.
  unfold set_bpm. destruct (new_bpm <? min_bpm m); [reflexivity |].
  destruct (calculate_step_duration_keeps (with_bpm new_bpm m))
    as (_ & -> & _). simpl.
  destruct (_set_bpm_tracks new_bpm (tracks m)) as [ts [e |]]; reflexivity.
Qed.

Lemma master_pass_keeps now m :
  nb_steps (_master_sequencer_loop now m).1 = nb_steps m
  /\ tracks (_master_sequencer_loop now m).1 = tracks m
  /\ min_bpm (_master_sequencer_loop now m).1 = min_bpm m
  /\ is_running (_master_sequencer_loop now m).1 = is_running m.
Proof.
  unfold _master_sequencer_loop.
  destruct (sequencer_thread m); [| repeat split; reflexivity].
  destruct (is_running m && negb (stop_event m)); [| repeat split; reflexivity].
  destruct (is_playing m && Qle_bool _ _); [| repeat split; reflexivity].
  unfold _process_master_step.
  destruct (nb_steps m <=? current_step_index m + 1); repeat split; reflexivity.
Qed.

Lemma exec_keeps_nb_steps e m : nb_steps (Session.exec e m).1 = nb_steps m.
Proof.
  destruct e as [i steps | new_bpm | | | now | | now | i now]; simpl;
    try reflexivity.
  - unfold set_steps. repeat (destruct (_ : bool); try reflexivity).
  - apply set_bpm_keeps_nb_steps.
  - unfold start. destruct (is_running m); reflexivity.
  - unfold stop. destruct (is_running m); reflexivity.
  - pose proof (master_pass_keeps now m) as (Hn & _).
    destruct (_master_sequencer_loop now m) as [m' tick]. exact Hn.
  - destruct (tracks m !! i) as [track |]; [| reflexivity].
    destruct (AudioSourceTrack._sequencer_loop now track). reflexivity.
Qed.

Lemma run_keeps_nb_steps es : forall m,
  nb_steps (Session.run es m).1 = nb_steps m.
Proof.
  induction es as [| e es IH]; intros m; [reflexivity |].
  cbn [Session.run].
  pose proof (exec_keeps_nb_steps e m) as Hn.
  destruct (Session.exec e m) as [m1 obs1]. specialize (IH m1).
  destruct (Session.run es m1) as [m2 obs2]. simpl in *. congruence.
Qed.

End MixerFrames.

(** ** Invariants of the tracks of a running mixer

    A property of a track that survives every method of the track -- for
    [set_steps], every call the mixer lets through, which has a pattern of
    [n] steps -- holds of every track of a mixer with [n] steps for as
    long as the mixer runs. *)

Section TrackInvariant.

Import AudioSourceMixer.

Variable n : Z.
Variable P : AudioSourceTrack.t -> Prop.

Hypothesis P_set_steps : forall steps track,
  len steps = n -> P track -> P (AudioSourceTrack.set_steps steps track).
Hypothesis P_set_bpm : forall new_bpm track,
  P track -> P (state_of (AudioSourceTrack.set_bpm new_bpm track)).
Hypothesis P_start : forall now track,
  P track -> P (AudioSourceTrack.start now track).
Hypothesis P_stop : forall track,
  P track -> P (AudioSourceTrack.stop track).
Hypothesis P_pass : forall now track,
  P track -> P (AudioSourceTrack._sequencer_loop now track).1.

Lemma set_bpm_tracks_invariant new_bpm : forall ts,
  Forall P ts -> Forall P (_set_bpm_tracks new_bpm ts).1.
Proof using P_set_bpm.
  induction 1 as [| track ts Htrack Hts IH]; [constructor |].
  cbn [_set_bpm_tracks].
  pose proof (P_set_bpm new_bpm track Htrack) as Hnew.
  destruct (AudioSourceTrack.set_bpm new_bpm track) as [[] track' | e track'];
    simpl in Hnew.
  - destruct (_set_bpm_tracks new_bpm ts) as [rest' e]. simpl in *.
    constructor; assumption.
  - simpl. constructor; assumption.
Qed.

Lemma exec_keeps_invariant e m :
  nb_steps m = n ->
  Forall P (tracks m) -> Forall P (tracks (Session.exec e m).1).
Proof using All.
  intros Hn Hinv.
  destruct e as [i steps | new_bpm | | | now | | now | i now]; simpl;
    try exact Hinv.
  - unfold set_steps.
    destruct (_ || _); [exact Hinv |].
    destruct (Z.eqb_spec (len steps) (nb_steps m)) as [Hlen | _];
      [| exact Hinv].
    simpl. apply Forall_alter; [exact Hinv |].
    intros track _ Htrack. apply P_set_steps; [congruence | exact Htrack].
  - rewrite set_bpm_tracks_of. destruct (new_bpm <? min_bpm m); [exact Hinv |].
    apply set_bpm_tracks_invariant. exact Hinv.
  - unfold start. destruct (is_running m); [exact Hinv |]. simpl.
    apply Forall_fmap. eapply Forall_impl; [exact Hinv |].
    intros track Htrack. apply P_start. exact Htrack.
  - unfold stop. destruct (is_running m); [| exact Hinv]. simpl.
    apply Forall_fmap. eapply Forall_impl; [exact Hinv |].
    intros track Htrack. apply P_stop. exact Htrack.
  - pose proof (master_pass_keeps now m) as (_ & Htracks & _).
    destruct (_master_sequencer_loop now m) as [m' tick].
    simpl in *. rewrite Htracks. exact Hinv.
  - destruct (tracks m !! i) as [track |] eqn:Hi; [| exact Hinv].
    rewrite Forall_lookup in Hinv.
    pose proof (P_pass now track (Hinv i track Hi)) as Hnew.
    destruct (AudioSourceTrack._sequencer_loop now track) as [track' tick].
    simpl in *. apply Forall_insert; [| exact Hnew].
    apply Forall_lookup. exact Hinv.
Qed.

Lemma run_keeps_invariant es : forall m,
  nb_steps m = n ->
  Forall P (tracks m) -> Forall P (tracks (Session.run es m).1).
Proof using All.
  induction es as [| e es IH]; intros m Hn Hinv; [exact Hinv |].
  cbn [Session.run].
  pose proof (exec_keeps_nb_steps e m) as Hn1.
  pose proof (exec_keeps_invariant e m Hn Hinv) as Hexec.
  destruct (Session.exec e m) as [m1 obs1]. simpl in Hn1, Hexec.
  specialize (IH m1 ltac:(congruence) Hexec).
  destruct (Session.run es m1) as [m2 obs2]. exact IH.
Qed.

End TrackInvariant.

(** The tracks of a mixer are only ever in states a track can reach. *)
Lemma mixer_tracks_reachable (m : AudioSourceMixer.t) :
  Session.reachable m ->
  Forall AudioSourceTrack.reachable (AudioSourceMixer.tracks m).
Proof.
  intros (wavs & b & sr & n & cb & mb & es & ->).
  destruct (init_fields wavs b sr n cb mb) as [Hn Htracks].
  apply (run_keeps_invariant n AudioSourceTrack.reachable).
  - intros steps track _. apply AudioSourceTrack.reach_set_steps.
  - apply AudioSourceTrack.reach_set_bpm.
  - apply AudioSourceTrack.reach_start.
  - apply AudioSourceTrack.reach_stop.
  - apply AudioSourceTrack.reach_pass.
  - exact Hn.
  - rewrite Htracks. unfold AudioSourceMixer._initialize_tracks.
    apply Forall_fmap, Forall_true. intros wav. unfold compose.
    apply AudioSourceTrack.reach_set_steps, AudioSourceTrack.reach_init.
Qed.



(** ** Tracks and the playing flag *)

Section PlayingFlag.

Import AudioSourceMixer.
Import Session.

Lemma same_for_tracks_refl m : same_for_tracks m m.
Proof. repeat split; reflexivity. Qed.

Lemma same_for_tracks_sym m1 m2 : same_for_tracks m1 m2 -> same_for_tracks m2 m1.
Proof. intros (? & ? & ? & ?). repeat split; congruence. Qed.

Lemma same_for_tracks_trans m1 m2 m3 :
  same_for_tracks m1 m2 -> same_for_tracks m2 m3 -> same_for_tracks m1 m3.
Proof. intros (? & ? & ? & ?) (? & ? & ? & ?). repeat split; congruence. Qed.

Lemma set_bpm_keeps new_bpm m :
  min_bpm (state_of (set_bpm new_bpm m)) = min_bpm m
  /\ is_running (state_of (set_bpm new_bpm m)) = is_running m.
Proof.
  unfold set_bpm. destruct (new_bpm <? min_bpm m); [split; reflexivity |].
  destruct (calculate_step_duration_keeps (with_bpm new_bpm m))
    as (_ & _ & Hmin & Hrun).
  destruct (_set_bpm_tracks _ _) as [ts [e |]]; simpl; split; assumption.
Qed.

(** [audio_play], [audio_stop] and a pass of the master loop touch nothing
    a track can see, and record no step of a track. *)
Lemma exec_master_side e m i :
  (is_play_stop e = true \/ exists now, e = MasterPass now) ->
  same_for_tracks (exec e m).1 m
  /\ trigger_decisions i (exec e m).2 = [].
Proof.
  intros [Hplay | [now ->]].
  - destruct e; try discriminate; repeat split; reflexivity.
  - simpl. pose proof (master_pass_keeps now m) as (Hn & Ht & Hmin & Hrun).
    destruct (_master_sequencer_loop now m) as [m' [effs |]]; simpl in *;
      (split; [repeat split; assumption | reflexivity]).
Qed.

(** Every other event does the same to the tracks of two mixers that are
    the same for the tracks. *)
Lemma exec_same_for_tracks e m1 m2 i :
  is_play_stop e = false ->
  same_for_tracks m1 m2 ->
  same_for_tracks (exec e m1).1 (exec e m2).1
  /\ trigger_decisions i (exec e m1).2 = trigger_decisions i (exec e m2).2.
Proof.
  intros Hother Hsame.
  destruct e as [idx steps | new_bpm | | | now | | now | j now];
    try discriminate.
  - destruct Hsame as (Ht & Hn & Hmin & Hrun). simpl. split; [| reflexivity].
    unfold set_steps. rewrite Ht, Hn.
    destruct (_ || _); [repeat split; assumption |].
    destruct (negb _); repeat split; assumption.
  - destruct Hsame as (Ht & Hn & Hmin & Hrun). simpl. split; [| reflexivity].
    destruct (set_bpm_keeps new_bpm m1) as [Hmin1 Hrun1].
    destruct (set_bpm_keeps new_bpm m2) as [Hmin2 Hrun2].
    repeat split.
    + rewrite !set_bpm_tracks_of, Ht, Hmin. reflexivity.
    + rewrite !set_bpm_keeps_nb_steps. exact Hn.
    + congruence.
    + congruence.
  - destruct Hsame as (Ht & Hn & Hmin & Hrun). simpl. split; [| reflexivity].
    unfold start. rewrite Hrun.
    destruct (is_running m2) eqn:Hrun2; repeat split; simpl; congruence.
  - destruct Hsame as (Ht & Hn & Hmin & Hrun). simpl. split; [| reflexivity].
    unfold stop. rewrite Hrun.
    destruct (is_running m2) eqn:Hrun2; repeat split; simpl; congruence.
  - destruct (exec_master_side (MasterPass now) m1 i) as [H1 ->];
      [right; eexists; reflexivity |].
    destruct (exec_master_side (MasterPass now) m2 i) as [H2 ->];
      [right; eexists; reflexivity |].
    split; [| reflexivity].
    eapply same_for_tracks_trans; [exact H1 |].
    eapply same_for_tracks_trans; [exact Hsame |].
    apply same_for_tracks_sym. exact H2.
  - destruct Hsame as (Ht & Hn & Hmin & Hrun). simpl. rewrite Ht.
    destruct (tracks m2 !! j) as [track |]; [| split; [repeat split; assumption | reflexivity]].
    destruct (AudioSourceTrack._sequencer_loop now track) as [track' tick].
    simpl. split; [repeat split; simpl; congruence | reflexivity].
Qed.

Lemma trigger_decisions_app i obs1 obs2 :
  trigger_decisions i (obs1 ++ obs2)
  = trigger_decisions i obs1 ++ trigger_decisions i obs2.
Proof. apply omap_app. Qed.

(** A schedule made only of [audio_play] and [audio_stop] calls. *)
Lemma run_only_play_stop i : forall es m,
  without_play_stop es = [] ->
  same_for_tracks (run es m).1 m
  /\ trigger_decisions i (run es m).2 = [].
Proof.
  induction es as [| e es IH]; intros m Hes.
  - split; [apply same_for_tracks_refl | reflexivity].
  - cbn [without_play_stop] in Hes. destruct (is_play_stop e) eqn:He;
      [| discriminate].
    cbn [run].
    destruct (exec_master_side e m i) as [Hsame Hobs]; [left; exact He |].
    destruct (exec e m) as [m1 obs1]. destruct (IH m1 Hes) as [IHsame IHobs].
    destruct (run es m1) as [m2 obs2]. simpl in *.
    rewrite trigger_decisions_app, Hobs, IHobs. split; [| reflexivity].
    eapply same_for_tracks_trans; eassumption.
Qed.

Lemma run_same_for_tracks i : forall es1 es2 m1 m2,
  same_for_tracks m1 m2 ->
  without_play_stop es1 = without_play_stop es2 ->
  same_for_tracks (run es1 m1).1 (run es2 m2).1
  /\ trigger_decisions i (run es1 m1).2 = trigger_decisions i (run es2 m2).2.
Proof.
  induction es1 as [| e1 es1 IH1].
  - intros es2 m1 m2 Hsame Hes. simpl in Hes. symmetry in Hes.
    destruct (run_only_play_stop i es2 m2 Hes) as [H2 ->].
    split; [| reflexivity]. simpl.
    eapply same_for_tracks_trans; [exact Hsame |].
    apply same_for_tracks_sym. exact H2.
  - intros es2 m1 m2 Hsame Hes. cbn [without_play_stop] in Hes.
    destruct (is_play_stop e1) eqn:He1.
    + cbn [run].
      destruct (exec_master_side e1 m1 i) as [Hside Hobs]; [left; exact He1 |].
      destruct (exec e1 m1) as [m1' obs1].
      destruct (IH1 es2 m1' m2) as [IHsame IHobs].
      { eapply same_for_tracks_trans; [exact Hside | exact Hsame]. }
      { exact Hes. }
      destruct (run es1 m1') as [m1'' obs1']. simpl in *.
      rewrite trigger_decisions_app, Hobs. split; assumption.
    + revert m2 Hsame Hes.
      induction es2 as [| e2 es2 IH2]; intros m2 Hsame Hes; [discriminate |].
      cbn [without_play_stop] in Hes. destruct (is_play_stop e2) eqn:He2.
      * destruct (exec_master_side e2 m2 i) as [Hside Hobs]; [left; exact He2 |].
        cbn [run] in IH2 |- *.
        destruct (exec e2 m2) as [m2' obs2].
        destruct (IH2 m2') as [IHsame IHobs].
        { eapply same_for_tracks_trans; [exact Hsame |].
          apply same_for_tracks_sym. exact Hside. }
        { exact Hes. }
        destruct (exec e1 m1) as [m1' obs1].
        destruct (run es1 m1') as [m1'' obs1'].
        destruct (run es2 m2') as [m2'' obs2']. simpl in *.
        rewrite (trigger_decisions_app i obs2), Hobs. split; assumption.
      * injection Hes as <- Hes. cbn [run].
        destruct (exec_same_for_tracks e1 m1 m2 i He1 Hsame) as [Hstep Hobs].
        destruct (exec e1 m1) as [m1' obs1].
        destruct (exec e1 m2) as [m2' obs2].
        destruct (IH1 es2 m1' m2' Hstep Hes) as [IHsame IHobs].
        destruct (run es1 m1') as [m1'' obs1'].
        destruct (run es2 m2') as [m2'' obs2']. simpl in *.
        rewrite !trigger_decisions_app, Hobs, IHobs. split; [assumption | reflexivity].
Qed.

End PlayingFlag.

(** C7.  The trigger decisions of a track do not depend on [is_playing].
    Take two mixers that hold the same tracks and differ in [is_playing]
    (and in what the master loop derives from it), and two schedules that
    are the same once their [audio_play] and [audio_stop] calls are taken
    out: every track then makes the same sequence of trigger decisions in
    both runs, and the tracks end in the same state. *)
Theorem track_triggers_ignore_is_playing
    (m1 m2 : AudioSourceMixer.t) (es1 es2 : list Session.event) (i : nat) :
  Session.same_for_tracks m1 m2 ->
  Session.without_play_stop es1 = Session.without_play_stop es2 ->
  Session.trigger_decisions i (Session.run es1 m1).2
  = Session.trigger_decisions i (Session.run es2 m2).2
  /\ AudioSourceMixer.tracks (Session.run es1 m1).1
     = AudioSourceMixer.tracks (Session.run es2 m2).1.
Proof.
  intros Hsame Hes.
  destruct (run_same_for_tracks i es1 es2 m1 m2 Hsame Hes)
    as [(Htracks & _) Hobs].
  split; [exact Hobs | exact Htracks].
Qed.

Lemma track_triggers_ignore_is_playing_witness :
  Session.trigger_decisions 0
    (Session.run (Examples.scenario_setup
                  ++ Session.CallAudioPlay :: Examples.scenario_passes)
                 Examples.drum_machine).2
  = Session.trigger_decisions 0
      (Session.run (Examples.scenario_setup
                    ++ Session.CallAudioStop :: Examples.scenario_passes)
                   (AudioSourceMixer.audio_play Examples.drum_machine)).2.
Proof.
  apply (track_triggers_ignore_is_playing
           Examples.drum_machine
           (AudioSourceMixer.audio_play Examples.drum_machine)
           (Examples.scenario_setup
            ++ Session.CallAudioPlay :: Examples.scenario_passes)
           (Examples.scenario_setup
            ++ Session.CallAudioStop :: Examples.scenario_passes)
           0%nat).
  - repeat split; reflexivity.
  - reflexivity.
Defined.


(** ** The model at work *)

(** A pass on which a track processes a step moves its cursor the way the
    advance block does. *)
Lemma track_pass_processed now self effs :
  0 <= AudioSourceTrack.current_step_index self ->
  (AudioSourceTrack._sequencer_loop now self).2 = Some effs ->
  AudioSourceTrack.current_step_index (AudioSourceTrack._sequencer_loop now self).1
  = AudioSourceTrack.current_step_index (AudioSourceTrack._advance_step self).
Proof.
  intros Hc. unfold AudioSourceTrack._sequencer_loop.
  destruct (AudioSourceTrack.playback_thread self); [| discriminate].
  destruct (_ && _); [| discriminate].
  destruct (Qle_bool _ _); [| discriminate].
  destruct (process_current_step_guarded self Hc) as (effs' & -> & _).
  intros _. unfold AudioSourceTrack._advance_step. simpl.
  destruct (_ <=? _); reflexivity.
Qed.

(** The end-to-end scenario of the specification: after four ticks track 0
    has triggered twice, track 1 once, and the sink has seen 2, 3, 0, 1. *)
Example scenario_playing :
  let obs := (Session.run (Examples.scenario_setup
                           ++ Session.CallAudioPlay :: Examples.scenario_passes)
                          Examples.drum_machine).2 in
  Session.trigger_decisions 0 obs = [true; false; true; false]
  /\ Session.trigger_decisions 1 obs = [false; true; false; false]
  /\ Session.notifications obs = [2; 3; 0; 1].
Proof. vm_compute. repeat split; reflexivity. Qed.

(** The same schedule without [audio_play]: the tracks trigger as before,
    the sink sees nothing and the master cursor stays at 0. *)
Example scenario_stopped :
  let r := Session.run (Examples.scenario_setup ++ Examples.scenario_passes)
                       Examples.drum_machine in
  Session.trigger_decisions 0 r.2 = [true; false; true; false]
  /\ Session.trigger_decisions 1 r.2 = [false; true; false; false]
  /\ Session.notifications r.2 = []
  /\ AudioSourceMixer.current_step_index r.1 = 0.
Proof. vm_compute. repeat split; reflexivity. Qed.

(** 120 BPM gives a step of 15/120 s, that is 0.125 s, and 5512 samples. *)
Example step_duration_at_120 :
  (AudioSourceTrack.step_duration Examples.kick == 1 # 8)%Q
  /\ AudioSourceTrack.step_nb_samples Examples.kick = 5512.
Proof. split; reflexivity. Qed.

(** * Further properties of the sequencing code *)

(** ** Mixing samples *)

Section Sum16.

Import AudioSourceMixer.

Lemma foldl_add_from (acc : Z) (xs : list Z) :
  foldl Z.add acc xs = acc + foldr Z.add 0 xs.
Proof.
  revert acc. induction xs as [| x xs IH]; intros acc; simpl; [lia |].
  rewrite IH. lia.
Qed.

Lemma sum_16bits_as_clamp xs :
  sum_16bits xs = Z.max MIN_16BITS (Z.min MAX_16BITS (foldr Z.add 0 xs)).
Proof.
  unfold sum_16bits. rewrite foldl_add_from, Z.add_0_l.
  unfold MAX_16BITS, MIN_16BITS.
  destruct (Z.ltb_spec 32767 (foldr Z.add 0 xs));
    [lia | destruct (Z.ltb_spec (foldr Z.add 0 xs) (-32768)); lia].
Qed.

Lemma total_permutation (xs ys : list Z) :
  xs ≡ₚ ys -> foldr Z.add 0 xs = foldr Z.add 0 ys.
Proof.
  induction 1 as [| x xs ys _ IH | x y xs | xs ys zs _ IH1 _ IH2]; simpl; lia.
Qed.

End Sum16.

(** X1.  [sum_16bits] is the exact sum of the samples clamped to the
    16-bit range: it equals [max(MIN_16BITS, min(MAX_16BITS, total))], so
    it always lies between -32768 and 32767 and is the exact sum whenever
    that sum fits. *)
Theorem sum_16bits_is_clamped_total (sample_values : list Z) :
  AudioSourceMixer.sum_16bits sample_values
  = Z.max (-32768) (Z.min 32767 (foldr Z.add 0 sample_values))
  /\ -32768 <= AudioSourceMixer.sum_16bits sample_values <= 32767.
Proof.
  pose proof (sum_16bits_as_clamp sample_values) as Hclamp.
  unfold AudioSourceMixer.MAX_16BITS, AudioSourceMixer.MIN_16BITS in Hclamp.
  split; [exact Hclamp | lia].
Qed.

(** X2.  The mixed value does not depend on the order in which the samples
    of the tracks are given. *)
Theorem sum_16bits_ignores_order (xs ys : list Z) :
  xs ≡ₚ ys ->
  AudioSourceMixer.sum_16bits xs = AudioSourceMixer.sum_16bits ys.
Proof.
  intros Hperm. rewrite !sum_16bits_as_clamp.
  rewrite (total_permutation xs ys Hperm). reflexivity.
Qed.

Lemma sum_16bits_ignores_order_witness :
  AudioSourceMixer.sum_16bits [15000; 20000; -8000]
  = AudioSourceMixer.sum_16bits [-8000; 15000; 20000].
Proof.
  apply (sum_16bits_ignores_order [15000; 20000; -8000] [-8000; 15000; 20000]).
  change ([15000; 20000; -8000]) with ([15000; 20000] ++ [-8000]).
  symmetry. apply Permutation_cons_append.
Defined.

(** ** Invariants of a track *)

Section TrackInvariants.

Import AudioSourceTrack.

Lemma cursor_valid_advance self :
  cursor_valid self -> cursor_valid (_advance_step self).
Proof.
  intros [Hc _]. destruct (track_advance_cursor self Hc) as [Hlo Hhi].
  split; [exact Hlo |]. rewrite track_advance_steps. exact Hhi.
Qed.

Lemma cursor_valid_with_thread r s th self :
  cursor_valid self -> cursor_valid (with_thread r s th self).
Proof. intros H. exact H. Qed.

Lemma cursor_valid_reachable self : reachable self -> cursor_valid self.
Proof.
  induction 1 as [wav b sr mb | ns self _ IH | nb self _ IH | now self _ IH
                  | self _ IH | now self _ IH | self _ IH].
  - unfold cursor_valid. destruct (track_init_steps wav b sr mb) as [_ ->].
    split; [lia | left; reflexivity].
  - unfold cursor_valid, set_steps in *.
    destruct (Z.eqb_spec (len ns) (len (steps self))) as [Heq | _]; simpl.
    + rewrite Heq. exact IH.
    + split; [lia | left; reflexivity].
  - unfold cursor_valid in *.
    destruct (track_set_bpm_steps nb self) as [-> ->]. exact IH.
  - unfold cursor_valid in *.
    destruct (track_start_steps now self) as [-> ->]. exact IH.
  - unfold cursor_valid in *.
    destruct (track_stop_steps self) as [-> ->]. exact IH.
  - unfold _sequencer_loop.
    destruct (playback_thread self); [| exact IH].
    destruct (is_running self && negb (stop_event self)); [| exact IH].
    destruct (Qle_bool _ _); [| exact IH].
    destruct (_process_current_step self) as [effs [e |]]; simpl; [exact IH |].
    apply cursor_valid_advance. exact IH.
  - apply cursor_valid_advance. exact IH.
Qed.

Lemma derived_fields_with_thread r s th self :
  derived_fields_agree self -> derived_fields_agree (with_thread r s th self).
Proof. intros H. exact H. Qed.



End TrackInvariants.

(** X3.  In every state a track can reach, its cursor is never negative
    and is either 0 or a valid index into the current pattern: replacing
    the pattern by one of another length resets it, and the advance block
    wraps it. *)
Theorem track_cursor_stays_in_pattern (self : AudioSourceTrack.t) :
  AudioSourceTrack.reachable self ->
  0 <= AudioSourceTrack.current_step_index self
  /\ (AudioSourceTrack.current_step_index self = 0
      \/ AudioSourceTrack.current_step_index self
         < len (AudioSourceTrack.steps self)).
Proof.
  intros Hreach.
  destruct (cursor_valid_reachable self Hreach) as [Hlo Hhi].
  split; [exact Hlo | exact Hhi].
Qed.

Lemma track_cursor_stays_in_pattern_witness :
  0 <= AudioSourceTrack.current_step_index
         (AudioSourceTrack.set_steps [1; 1]
            (AudioSourceTrack.ticks 3 Examples.kick))
  /\ (AudioSourceTrack.current_step_index
        (AudioSourceTrack.set_steps [1; 1]
           (AudioSourceTrack.ticks 3 Examples.kick)) = 0
      \/ AudioSourceTrack.current_step_index
           (AudioSourceTrack.set_steps [1; 1]
              (AudioSourceTrack.ticks 3 Examples.kick))
         < len (AudioSourceTrack.steps
                  (AudioSourceTrack.set_steps [1; 1]
                     (AudioSourceTrack.ticks 3 Examples.kick)))).
Proof.
  apply (track_cursor_stays_in_pattern
           (AudioSourceTrack.set_steps [1; 1]
              (AudioSourceTrack.ticks 3 Examples.kick))).
  apply AudioSourceTrack.reach_set_steps.
  do 3 apply AudioSourceTrack.reach_advance.
  apply AudioSourceTrack.reach_set_steps, AudioSourceTrack.reach_init.
Defined.



(** ** What [get_pattern_info] reports *)

Section PatternInfoFacts.

Import AudioSourceTrack.

Lemma enumerate_elem {A} (l : list A) : forall start i x,
  (i, x) ∈ enumerate start l
  <-> exists k : nat, i = start + Z.of_nat k /\ l !! k = Some x.
Proof.
  induction l as [| y l IH]; intros start i x; simpl.
  - split; [intros H; apply elem_of_nil in H; contradiction |].
    intros (k & _ & Hk). discriminate.
  - rewrite elem_of_cons, IH. split.
    + intros [[= -> ->] | (k & -> & Hk)].
      * exists 0%nat. split; [lia | reflexivity].
      * exists (S k). split; [lia | exact Hk].
    + intros ([| k] & -> & Hk).
      * left. injection Hk as ->. f_equal. lia.
      * right. exists k. split; [lia | exact Hk].
Qed.

Lemma active_steps_elem self i :
  i ∈ PatternInfo.active_steps (get_pattern_info self)
  <-> exists k : nat, i = Z.of_nat k /\ steps self !! k = Some 1.
Proof.
  unfold get_pattern_info. simpl. rewrite list_elem_of_fmap. split.
  - intros ([j step] & -> & Hin). simpl.
    apply list_elem_of_In, filter_In in Hin as [Hin Hone]. simpl in Hone.
    apply Z.eqb_eq in Hone. subst step.
    apply list_elem_of_In, enumerate_elem in Hin as (k & -> & Hk).
    exists k. split; [lia | exact Hk].
  - intros (k & -> & Hk). exists (Z.of_nat k, 1). split; [reflexivity |].
    apply list_elem_of_In, filter_In. split; [| reflexivity].
    apply list_elem_of_In, enumerate_elem. exists k. split; [lia | exact Hk].
Qed.

Lemma no_steps_activated_iff self :
  _no_steps_activated self = true <-> forall k : nat, steps self !! k <> Some 1.
Proof.
  unfold _no_steps_activated. split.
  - intros Hnone k Hk.
    destruct (Z.eqb_spec (len (steps self)) 0) as [Hlen | _].
    + apply lookup_lt_Some in Hk. unfold len in Hlen. lia.
    + apply negb_true_iff, not_true_iff_false in Hnone. apply Hnone.
      apply existsb_exists. exists 1. split; [| reflexivity].
      apply list_elem_of_In. eapply list_elem_of_lookup_2. exact Hk.
  - intros Hnone. destruct (_ =? 0); [reflexivity |].
    apply negb_true_iff, not_true_iff_false. intros Hex.
    apply existsb_exists in Hex as (step & Hin & Hone).
    apply Z.eqb_eq in Hone. subst step.
    apply list_elem_of_In, list_elem_of_lookup_1 in Hin as [k Hk].
    exact (Hnone k Hk).
Qed.

Lemma process_triggers_iff self :
  0 <= current_step_index self ->
  existsb is_trigger (_process_current_step self).1 = true
  <-> steps self !! Z.to_nat (current_step_index self) = Some 1.
Proof.
  intros Hc. unfold _process_current_step.
  destruct (negb (_no_steps_activated self)
            && (current_step_index self <? len (steps self))) eqn:Hguard.
  - apply andb_true_iff in Hguard as [_ Hlt]. apply Z.ltb_lt in Hlt.
    unfold py_getitem. destruct (Z.leb_spec 0 (current_step_index self)); [| lia].
    destruct (steps self !! Z.to_nat (current_step_index self)) as [step |]
      eqn:Hstep.
    + simpl. destruct (Z.eqb_spec step 1) as [-> | Hne].
      * split; reflexivity.
      * simpl. split; [discriminate | intros [= ?]; contradiction].
    + simpl. split; discriminate.
  - simpl. split; [discriminate |]. intros Hone. exfalso.
    apply andb_false_iff in Hguard as [Hnone | Hge].
    + apply negb_false_iff in Hnone.
      exact (proj1 (no_steps_activated_iff self) Hnone _ Hone).
    + apply Z.ltb_ge in Hge. apply lookup_lt_Some in Hone.
      unfold len in Hge. lia.
Qed.

End PatternInfoFacts.

(** X5.  [get_pattern_info] lists in ['active_steps'] exactly the
    positions whose flag is 1, each within the pattern; the list is empty
    exactly when [_no_steps_activated] holds, and ['pattern_length'] is
    the length of the pattern. *)
Theorem pattern_info_lists_active_steps (self : AudioSourceTrack.t) :
  let info := AudioSourceTrack.get_pattern_info self in
  (forall i,
     i ∈ AudioSourceTrack.PatternInfo.active_steps info
     <-> 0 <= i < len (AudioSourceTrack.steps self)
         /\ py_getitem (AudioSourceTrack.steps self) i = Some 1)
  /\ (AudioSourceTrack.PatternInfo.active_steps info = []
      <-> AudioSourceTrack._no_steps_activated self = true)
  /\ AudioSourceTrack.PatternInfo.pattern_length info
     = len (AudioSourceTrack.steps self).
Proof.
  intros info. subst info. split; [| split; [| reflexivity]].
  - intros i. rewrite active_steps_elem. unfold py_getitem, len. split.
    + intros (k & -> & Hk). pose proof (lookup_lt_Some _ _ _ Hk) as Hlt.
      split; [lia |].
      destruct (Z.leb_spec 0 (Z.of_nat k)); [| lia].
      rewrite Nat2Z.id. exact Hk.
    + intros [Hrange Hget]. destruct (Z.leb_spec 0 i); [| lia].
      exists (Z.to_nat i). split; [lia | exact Hget].
  - rewrite no_steps_activated_iff. split.
    + intros Hnil k Hk.
      assert (Hin : Z.of_nat k
                    ∈ AudioSourceTrack.PatternInfo.active_steps
                        (AudioSourceTrack.get_pattern_info self)).
      { apply active_steps_elem. exists k. split; [reflexivity | exact Hk]. }
      rewrite Hnil in Hin. apply elem_of_nil in Hin. exact Hin.
    + intros Hnone.
      destruct (AudioSourceTrack.PatternInfo.active_steps
                  (AudioSourceTrack.get_pattern_info self)) as [| i rest]
        eqn:Hact; [reflexivity |].
      exfalso.
      assert (Hin : i ∈ AudioSourceTrack.PatternInfo.active_steps
                          (AudioSourceTrack.get_pattern_info self)).
      { rewrite Hact. apply elem_of_cons. left. reflexivity. }
      apply active_steps_elem in Hin as (k & _ & Hk). exact (Hnone k Hk).
Qed.

(** X6.  A processed step calls [_trigger_audio_sample] exactly when the
    cursor is one of the ['active_steps'] that [get_pattern_info] reports,
    in every state the track can reach. *)
Theorem track_triggers_on_active_steps (self : AudioSourceTrack.t) :
  AudioSourceTrack.reachable self ->
  existsb is_trigger (AudioSourceTrack._process_current_step self).1 = true
  <-> AudioSourceTrack.current_step_index self
      ∈ AudioSourceTrack.PatternInfo.active_steps
          (AudioSourceTrack.get_pattern_info self).
Proof.
  intros Hreach.
  pose proof (track_reachable_cursor_nonneg self Hreach) as Hc.
  rewrite (process_triggers_iff self Hc), active_steps_elem. split.
  - intros Hone. exists (Z.to_nat (AudioSourceTrack.current_step_index self)).
    split; [lia | exact Hone].
  - intros (k & Heq & Hk). rewrite Heq, Nat2Z.id. exact Hk.
Qed.

Lemma track_triggers_on_active_steps_witness :
  existsb is_trigger
    (AudioSourceTrack._process_current_step
       (AudioSourceTrack.ticks 2 Examples.kick)).1 = true
  <-> AudioSourceTrack.current_step_index
        (AudioSourceTrack.ticks 2 Examples.kick)
      ∈ AudioSourceTrack.PatternInfo.active_steps
          (AudioSourceTrack.get_pattern_info
             (AudioSourceTrack.ticks 2 Examples.kick)).
Proof.
  apply (track_triggers_on_active_steps
           (AudioSourceTrack.ticks 2 Examples.kick)).
  do 2 apply AudioSourceTrack.reach_advance.
  apply AudioSourceTrack.reach_set_steps, AudioSourceTrack.reach_init.
Defined.

(** ** Frame facts: what each method leaves untouched *)

Ltac split_ifs :=
  repeat match goal with
         | |- context [if ?c then _ else _] => destruct c eqn:?; simpl
         end.

Section TrackFrames.

Import AudioSourceTrack.

Lemma track_set_steps_frame new_steps self :
  is_running (set_steps new_steps self) = is_running self
  /\ stop_event (set_steps new_steps self) = stop_event self
  /\ bpm (set_steps new_steps self) = bpm self
  /\ step_duration (set_steps new_steps self) = step_duration self.
Proof. unfold set_steps. split_ifs; repeat split; reflexivity. Qed.

Lemma track_set_bpm_frame new_bpm self :
  is_running (state_of (set_bpm new_bpm self)) = is_running self
  /\ stop_event (state_of (set_bpm new_bpm self)) = stop_event self.
Proof.
  unfold set_bpm, _calculate_step_duration. simpl.
  split_ifs; repeat split; reflexivity.
Qed.



Lemma track_pass_frame now self :
  is_running (_sequencer_loop now self).1 = is_running self
  /\ stop_event (_sequencer_loop now self).1 = stop_event self
  /\ bpm (_sequencer_loop now self).1 = bpm self
  /\ step_duration (_sequencer_loop now self).1 = step_duration self.
Proof.
  unfold _sequencer_loop.
  destruct (playback_thread self); [| repeat split; reflexivity].
  destruct (is_running self && negb (stop_event self));
    [| repeat split; reflexivity].
  destruct (Qle_bool _ _); [| repeat split; reflexivity].
  destruct (_process_current_step self) as [effs [e |]]; simpl;
    [repeat split; reflexivity |].
  unfold _advance_step. simpl. split_ifs; repeat split; reflexivity.
Qed.

End TrackFrames.

Section MixerRunInvariants.

Import AudioSourceMixer.
Import Session.

Lemma mixer_set_steps_frame i steps m :
  let m' := (set_steps i steps m).1 in
  bpm m' = bpm m /\ min_bpm m' = min_bpm m /\ nb_steps m' = nb_steps m
  /\ current_step_index m' = current_step_index m
  /\ is_playing m' = is_playing m /\ is_running m' = is_running m
  /\ stop_event m' = stop_event m /\ step_duration m' = step_duration m.
Proof. unfold set_steps. simpl. split_ifs; repeat split; reflexivity. Qed.

Lemma mixer_set_bpm_frame new_bpm m :
  let m' := state_of (set_bpm new_bpm m) in
  min_bpm m' = min_bpm m /\ nb_steps m' = nb_steps m
  /\ current_step_index m' = current_step_index m
  /\ is_playing m' = is_playing m /\ is_running m' = is_running m
  /\ stop_event m' = stop_event m.
Proof.
  unfold set_bpm, _calculate_step_duration. simpl.
  destruct (new_bpm <? min_bpm m); [repeat split; reflexivity |].
  destruct (0 <? new_bpm); simpl;
    destruct (_set_bpm_tracks new_bpm (tracks m)) as [ts [e |]];
    repeat split; reflexivity.
Qed.

Lemma mixer_start_frame now m :
  bpm (start now m) = bpm m /\ min_bpm (start now m) = min_bpm m
  /\ nb_steps (start now m) = nb_steps m
  /\ current_step_index (start now m) = current_step_index m
  /\ is_playing (start now m) = is_playing m
  /\ step_duration (start now m) = step_duration m.
Proof. unfold start. split_ifs; repeat split; reflexivity. Qed.

Lemma mixer_stop_frame m :
  bpm (stop m) = bpm m /\ min_bpm (stop m) = min_bpm m
  /\ nb_steps (stop m) = nb_steps m
  /\ current_step_index (stop m) = current_step_index m
  /\ step_duration (stop m) = step_duration m
  /\ is_playing (stop m) = is_playing m && negb (is_running m).
Proof.
  unfold stop. destruct (is_running m); simpl; repeat split;
    try reflexivity; destruct (is_playing m); reflexivity.
Qed.

Lemma mixer_master_pass_frame now m :
  let m' := (_master_sequencer_loop now m).1 in
  bpm m' = bpm m /\ min_bpm m' = min_bpm m /\ nb_steps m' = nb_steps m
  /\ is_playing m' = is_playing m /\ is_running m' = is_running m
  /\ stop_event m' = stop_event m /\ step_duration m' = step_duration m
  /\ tracks m' = tracks m.
Proof.
  unfold _master_sequencer_loop. simpl.
  destruct (sequencer_thread m); [| repeat split; reflexivity].
  destruct (is_running m && negb (stop_event m)); [| repeat split; reflexivity].
  destruct (is_playing m && Qle_bool _ _); [| repeat split; reflexivity].
  unfold _process_master_step. simpl.
  destruct (nb_steps m <=? current_step_index m + 1); repeat split; reflexivity.
Qed.

(** An invariant of single events is an invariant of runs. *)
Lemma run_preserves (I : t -> Prop) :
  (forall e m, I m -> I (exec e m).1) ->
  forall es m, I m -> I (run es m).1.
Proof.
  intros Hstep. induction es as [| e es IH]; intros m Hm; [exact Hm |].
  cbn [run]. specialize (Hstep e m Hm).
  destruct (exec e m) as [m1 obs1]. specialize (IH m1 Hstep).
  destruct (run es m1) as [m2 obs2]. exact IH.
Qed.

Lemma reachable_invariant (I : t -> Prop) :
  (forall wavs b sr n cb mb, I (__init__ wavs b sr n cb mb)) ->
  (forall e m, I m -> I (exec e m).1) ->
  forall m, reachable m -> I m.
Proof.
  intros Hinit Hstep m (wavs & b & sr & n & cb & mb & es & ->).
  apply run_preserves; [exact Hstep | apply Hinit].
Qed.

(** *** The master cursor *)

Lemma master_cursor_valid_step m :
  master_cursor_valid m -> master_cursor_valid (_process_master_step m).1.
Proof.
  unfold master_cursor_valid, _process_master_step. simpl.
  intros [Hlo Hhi].
  destruct (Z.leb_spec (nb_steps m) (current_step_index m + 1)); simpl; lia.
Qed.

Lemma master_cursor_valid_exec e m :
  master_cursor_valid m -> master_cursor_valid (exec e m).1.
Proof.
  unfold master_cursor_valid. intros Hm.
  destruct e as [i steps | new_bpm | | | now | | now | i now]; simpl;
    try exact Hm.
  - destruct (mixer_set_steps_frame i steps m) as (_ & _ & -> & -> & _).
    exact Hm.
  - destruct (mixer_set_bpm_frame new_bpm m) as (_ & -> & -> & _). exact Hm.
  - destruct (mixer_start_frame now m) as (_ & _ & -> & -> & _). exact Hm.
  - destruct (mixer_stop_frame m) as (_ & _ & -> & -> & _). exact Hm.
  - unfold _master_sequencer_loop.
    destruct (sequencer_thread m); [| exact Hm].
    destruct (is_running m && negb (stop_event m)); [| exact Hm].
    destruct (is_playing m && Qle_bool _ _); [| exact Hm].
    pose proof (master_cursor_valid_step m Hm) as Hstep.
    destruct (_process_master_step m) as [m' effs]. exact Hstep.
  - destruct (tracks m !! i) as [track |]; [| exact Hm].
    destruct (AudioSourceTrack._sequencer_loop now track). exact Hm.
Qed.

Lemma master_cursor_valid_init wavs b sr n cb mb :
  master_cursor_valid (__init__ wavs b sr n cb mb).
Proof.
  unfold master_cursor_valid, __init__, _calculate_step_duration. simpl.
  destruct (0 <? b); simpl; split; try lia; left; reflexivity.
Qed.

End MixerRunInvariants.

(** X7.  In every state a mixer can reach, its master cursor is never
    negative and is either 0 or smaller than [nb_steps]; so with at least
    one step it always lies in [0, nb_steps). *)
Theorem master_cursor_stays_in_sequence (m : AudioSourceMixer.t) :
  Session.reachable m ->
  0 <= AudioSourceMixer.current_step_index m
  /\ (AudioSourceMixer.current_step_index m = 0
      \/ AudioSourceMixer.current_step_index m < AudioSourceMixer.nb_steps m).
Proof.
  apply (reachable_invariant Session.master_cursor_valid).
  - apply master_cursor_valid_init.
  - apply master_cursor_valid_exec.
Qed.

Section Notifications.

Import AudioSourceMixer.
Import Session.

Lemma notifications_app obs1 obs2 :
  notifications (obs1 ++ obs2) = notifications obs1 ++ notifications obs2.
Proof. apply bind_app. Qed.

Lemma notifications_only_master e m :
  (forall now, e <> MasterPass now) -> notifications (exec e m).2 = [].
Proof.
  intros Hother.
  destruct e as [i steps | new_bpm | | | now | | now | i now]; simpl;
    try reflexivity.
  - exfalso. exact (Hother now eq_refl).
  - destruct (tracks m !! i) as [track |]; [| reflexivity].
    destruct (AudioSourceTrack._sequencer_loop now track) as [track' [effs |]];
      reflexivity.
Qed.

Lemma notifications_master_pass now m :
  notifications (exec (MasterPass now) m).2 = []
  \/ is_playing m = true
     /\ exists sink,
          on_current_step_changed m = Some sink
          /\ notifications (exec (MasterPass now) m).2
             = [if current_step_index m - 2 <? 0
                then current_step_index m - 2 + nb_steps m
                else current_step_index m - 2].
Proof.
  simpl. unfold _master_sequencer_loop.
  destruct (sequencer_thread m); [| left; reflexivity].
  destruct (is_running m && negb (stop_event m)); [| left; reflexivity].
  destruct (is_playing m); [| left; reflexivity].
  destruct (Qle_bool _ _); [| left; reflexivity].
  unfold _process_master_step. simpl.
  destruct (on_current_step_changed m) as [sink |]; [| left; reflexivity].
  right. split; [reflexivity |]. exists sink. split; reflexivity.
Qed.

Lemma notifications_in_range_exec e m :
  master_cursor_valid m -> 2 <= nb_steps m ->
  Forall (fun d => 0 <= d < nb_steps m) (notifications (exec e m).2).
Proof.
  intros [Hlo Hhi] HN.
  destruct e as [i steps | new_bpm | | | now | | now | i now];
    try (rewrite notifications_only_master by discriminate; constructor).
  destruct (notifications_master_pass now m) as [-> | (_ & sink & _ & ->)];
    [constructor |].
  constructor; [| constructor].
  destruct (Z.ltb_spec (current_step_index m - 2) 0); lia.
Qed.

Lemma notifications_in_range_run es : forall m,
  master_cursor_valid m -> 2 <= nb_steps m ->
  Forall (fun d => 0 <= d < nb_steps m) (notifications (run es m).2).
Proof.
  induction es as [| e es IH]; intros m Hvalid HN; [constructor |].
  cbn [run].
  pose proof (notifications_in_range_exec e m Hvalid HN) as Hhead.
  pose proof (master_cursor_valid_exec e m Hvalid) as Hvalid1.
  pose proof (exec_keeps_nb_steps e m) as Hn1.
  destruct (exec e m) as [m1 obs1]. simpl in *.
  specialize (IH m1 Hvalid1 ltac:(lia)).
  destruct (run es m1) as [m2 obs2]. simpl in *.
  rewrite notifications_app. apply Forall_app. split; [exact Hhead |].
  rewrite Hn1 in IH. exact IH.
Qed.

(** While the mixer is not playing and nobody calls [audio_play]. *)
Lemma not_playing_exec e m :
  is_playing m = false -> e <> CallAudioPlay ->
  is_playing (exec e m).1 = false
  /\ current_step_index (exec e m).1 = current_step_index m
  /\ notifications (exec e m).2 = [].
Proof.
  intros Hstopped Hother.
  destruct e as [i steps | new_bpm | | | now | | now | i now];
    try (rewrite notifications_only_master by discriminate); simpl.
  - destruct (mixer_set_steps_frame i steps m) as (_ & _ & _ & -> & -> & _).
    repeat split; [exact Hstopped |..]; reflexivity.
  - destruct (mixer_set_bpm_frame new_bpm m) as (_ & _ & -> & -> & _).
    repeat split; [exact Hstopped |..]; reflexivity.
  - contradiction.
  - repeat split; reflexivity.
  - destruct (mixer_start_frame now m) as (_ & _ & _ & -> & -> & _).
    repeat split; [exact Hstopped |..]; reflexivity.
  - destruct (mixer_stop_frame m) as (_ & _ & _ & -> & _ & ->).
    rewrite Hstopped. repeat split; reflexivity.
  - destruct (notifications_master_pass now m) as [Hnone | (Hplay & _)];
      [| congruence].
    simpl in Hnone.
    unfold _master_sequencer_loop in *. rewrite Hstopped in *.
    destruct (sequencer_thread m); [| repeat split; assumption].
    destruct (is_running m && negb (stop_event m)); simpl in *;
      repeat split; assumption.
  - destruct (tracks m !! i) as [track |];
      [| repeat split; [exact Hstopped |..]; reflexivity].
    destruct (AudioSourceTrack._sequencer_loop now track) as [track' tick].
    repeat split; [exact Hstopped |..]; reflexivity.
Qed.

Lemma not_playing_run es : forall m,
  is_playing m = false ->
  Forall (fun e => e <> CallAudioPlay) es ->
  is_playing (run es m).1 = false
  /\ current_step_index (run es m).1 = current_step_index m
  /\ notifications (run es m).2 = [].
Proof.
  induction es as [| e es IH]; intros m Hstopped Hes;
    [repeat split; [exact Hstopped |..]; reflexivity |].
  apply Forall_cons in Hes as [He Hes]. cbn [run].
  destruct (not_playing_exec e m Hstopped He) as (Hp1 & Hc1 & Hn1).
  destruct (exec e m) as [m1 obs1]. simpl in *.
  destruct (IH m1 Hp1 Hes) as (Hp2 & Hc2 & Hn2).
  destruct (run es m1) as [m2 obs2]. simpl in *.
  rewrite notifications_app, Hn1, Hn2. repeat split; [assumption | congruence].
Qed.

End Notifications.

(** X8.  Every display index a mixer with at least two steps hands to its
    notification callback is a step of the sequence: from any reachable
    state, whatever happens next, each index lies in [0, nb_steps). *)
Theorem notifications_are_step_indices
    (m : AudioSourceMixer.t) (es : list Session.event) :
  Session.reachable m ->
  2 <= AudioSourceMixer.nb_steps m ->
  Forall (fun d => 0 <= d < AudioSourceMixer.nb_steps m)
         (Session.notifications (Session.run es m).2).
Proof.
  intros Hreach HN. apply notifications_in_range_run; [| exact HN].
  apply (reachable_invariant Session.master_cursor_valid);
    [apply master_cursor_valid_init | apply master_cursor_valid_exec | exact Hreach].
Qed.

(** X9.  A mixer that is not playing stays mute towards the display for as
    long as [audio_play] is not called: over any other calls and any
    passes of the loops -- [stop] and a new [start] included -- the
    callback is never invoked, the master cursor does not move and
    [is_playing] stays false. *)
Theorem display_waits_for_audio_play
    (m : AudioSourceMixer.t) (es : list Session.event) :
  AudioSourceMixer.is_playing m = false ->
  Forall (fun e => e <> Session.CallAudioPlay) es ->
  Session.notifications (Session.run es m).2 = []
  /\ AudioSourceMixer.current_step_index (Session.run es m).1
     = AudioSourceMixer.current_step_index m
  /\ AudioSourceMixer.is_playing (Session.run es m).1 = false.
Proof.
  intros Hstopped Hes.
  destruct (not_playing_run es m Hstopped Hes) as (Hp & Hc & Hn).
  repeat split; assumption.
Qed.

(** X10.  [stop] of a running mixer clears [is_playing]: after it the
    display gets nothing, even once the mixer is started again, until
    [audio_play] is called. *)
Theorem stop_mutes_display_until_play
    (m : AudioSourceMixer.t) (es : list Session.event) :
  AudioSourceMixer.is_running m = true ->
  Forall (fun e => e <> Session.CallAudioPlay) es ->
  AudioSourceMixer.is_playing (AudioSourceMixer.stop m) = false
  /\ Session.notifications (Session.run (Session.CallStop :: es) m).2 = [].
Proof.
  intros Hrun Hes.
  assert (Hstopped : AudioSourceMixer.is_playing (AudioSourceMixer.stop m) = false).
  { destruct (mixer_stop_frame m) as (_ & _ & _ & _ & _ & ->).
    rewrite Hrun. apply andb_false_r. }
  split; [exact Hstopped |].
  cbn [Session.run Session.exec].
  destruct (not_playing_run es (AudioSourceMixer.stop m) Hstopped Hes)
    as (_ & _ & Hn).
  destruct (Session.run es (AudioSourceMixer.stop m)) as [m2 obs2].
  simpl in *. exact Hn.
Qed.

Section Lifecycle.

Import AudioSourceMixer.
Import Session.

Lemma lifecycle_coherent_exec e m :
  lifecycle_coherent m -> lifecycle_coherent (exec e m).1.
Proof.
  intros Hm. pose proof Hm as [Hflag Htracks].
  destruct e as [i steps | new_bpm | | | now | | now | i now]; simpl.
  - destruct (mixer_set_steps_frame i steps m)
      as (_ & _ & _ & _ & _ & Hrun & Hstop & _).
    split; [rewrite Hrun, Hstop; exact Hflag |]. rewrite Hrun.
    unfold set_steps. split_ifs; try exact Htracks.
    apply Forall_alter; [exact Htracks |]. intros track _ Htrack.
    destruct (track_set_steps_frame steps track) as (-> & -> & _).
    exact Htrack.
  - destruct (mixer_set_bpm_frame new_bpm m) as (_ & _ & _ & _ & Hrun & Hstop).
    split; [rewrite Hrun, Hstop; exact Hflag |]. rewrite Hrun.
    rewrite set_bpm_tracks_of. destruct (new_bpm <? min_bpm m); [exact Htracks |].
    apply set_bpm_tracks_invariant; [| exact Htracks].
    intros b track Htrack.
    destruct (track_set_bpm_frame b track) as (-> & ->). exact Htrack.
  - exact Hm.
  - exact Hm.
  - unfold start. destruct (is_running m) eqn:Hrun; [exact Hm |].
    simpl. split; [reflexivity |].
    apply Forall_fmap. eapply Forall_impl; [exact Htracks |].
    intros track [Htr _]. unfold compose, AudioSourceTrack.start.
    rewrite Htr. simpl. split; reflexivity.
  - unfold stop. destruct (is_running m) eqn:Hrun; [| exact Hm].
    simpl. split; [discriminate |].
    apply Forall_fmap. eapply Forall_impl; [exact Htracks |].
    intros track [Htr _]. unfold compose, AudioSourceTrack.stop.
    rewrite Htr. simpl. split; [reflexivity | discriminate].
  - destruct (mixer_master_pass_frame now m)
      as (_ & _ & _ & _ & Hrun & Hstop & _ & Htr).
    destruct (_master_sequencer_loop now m) as [m' tick]. simpl in *.
    split; [rewrite Hrun, Hstop; exact Hflag |]. rewrite Hrun, Htr.
    exact Htracks.
  - destruct (tracks m !! i) as [track |] eqn:Hi; [| exact Hm].
    pose proof (track_pass_frame now track) as (Hrun & Hstop & _).
    destruct (AudioSourceTrack._sequencer_loop now track) as [track' tick].
    simpl in *. split; [exact Hflag |].
    apply Forall_insert; [exact Htracks |]. rewrite Hrun, Hstop.
    rewrite Forall_lookup in Htracks. exact (Htracks i track Hi).
Qed.

Lemma lifecycle_coherent_init wavs b sr n cb mb :
  lifecycle_coherent (__init__ wavs b sr n cb mb).
Proof.
  destruct (init_fields wavs b sr n cb mb) as [_ Htracks].
  unfold lifecycle_coherent. rewrite Htracks.
  unfold __init__, _calculate_step_duration. simpl.
  split; [destruct (0 <? b); discriminate |].
  assert (Hflag : is_running
                    (if 0 <? b
                     then with_step_duration (15 / inject_Z b)
                            (mk sr b mb n 0 false false false None cb
                                (_initialize_tracks wavs b sr n mb) 0%Q)
                     else with_step_duration 0
                            (mk sr b mb n 0 false false false None cb
                                (_initialize_tracks wavs b sr n mb) 0%Q))
                  = false) by (destruct (0 <? b); reflexivity).
  rewrite Hflag. unfold _initialize_tracks.
  apply Forall_fmap, Forall_true. intros wav. unfold compose.
  destruct (track_set_steps_frame (py_repeat 0 n)
              (AudioSourceTrack.__init__ wav b sr mb)) as (-> & -> & _).
  unfold AudioSourceTrack.__init__, AudioSourceTrack._calculate_step_duration.
  simpl. split_ifs; split; first [reflexivity | discriminate].
Qed.

(** *** Tempo *)

Lemma set_bpm_tracks_rejected new_bpm : forall ts,
  new_bpm <= 0 ->
  _set_bpm_tracks new_bpm ts
  = match ts with
    | [] => ([], None)
    | _ :: _ => (ts, Some ValueError)
    end.
Proof.
  intros [| track ts] Hle; [reflexivity |]. cbn [_set_bpm_tracks].
  unfold AudioSourceTrack.set_bpm.
  destruct (Z.leb_spec new_bpm 0); [reflexivity | lia].
Qed.




End Lifecycle.

(** X11.  In every state a mixer can reach, each of its tracks is running
    exactly when the mixer is, and neither the mixer nor a track has its
    stop event set while it is running: [start] and [stop] switch the
    mixer and all its tracks together, whatever their order and number. *)
Theorem tracks_run_with_the_mixer (m : AudioSourceMixer.t) :
  Session.reachable m ->
  (AudioSourceMixer.is_running m = true ->
   AudioSourceMixer.stop_event m = false)
  /\ Forall (fun track =>
               AudioSourceTrack.is_running track = AudioSourceMixer.is_running m
               /\ (AudioSourceTrack.is_running track = true ->
                   AudioSourceTrack.stop_event track = false))
            (AudioSourceMixer.tracks m).
Proof.
  apply (reachable_invariant Session.lifecycle_coherent).
  - apply lifecycle_coherent_init.
  - apply lifecycle_coherent_exec.
Qed.



(** X14.  With a floor of 0 or less, a tempo between the floor and 0 gets
    past the test of the mixer: [set_bpm] then overwrites the master [bpm]
    and puts the master [step_duration] to [0.0]; with no track it returns
    [True], with at least one it raises the [ValueError] of the first
    track and every track keeps its old tempo. *)
Theorem mixer_set_bpm_below_one (m : AudioSourceMixer.t) (new_bpm : Z) :
  AudioSourceMixer.min_bpm m <= new_bpm ->
  new_bpm <= 0 ->
  let after := state_of (AudioSourceMixer.set_bpm new_bpm m) in
  AudioSourceMixer.bpm after = new_bpm
  /\ AudioSourceMixer.step_duration after = 0%Q
  /\ AudioSourceMixer.tracks after = AudioSourceMixer.tracks m
  /\ AudioSourceMixer.set_bpm new_bpm m
     = match AudioSourceMixer.tracks m with
       | [] => Returned true after
       | _ :: _ => Raised ValueError after
       end.
Proof.
  intros Hfloor Hle after. subst after. unfold AudioSourceMixer.set_bpm.
  destruct (Z.ltb_spec new_bpm (AudioSourceMixer.min_bpm m)) as [Hlt | _]; [lia |].
  unfold AudioSourceMixer._calculate_step_duration. simpl.
  destruct (Z.ltb_spec 0 new_bpm) as [Hpos | _]; [lia |]. simpl.
  rewrite (set_bpm_tracks_rejected new_bpm (AudioSourceMixer.tracks m) Hle).
  destruct (AudioSourceMixer.tracks m) as [| track ts] eqn:Hts; simpl;
    rewrite ?Hts; repeat split; reflexivity.
Qed.

(** ** Snapshots and legacy buffers *)

Section Snapshots.

Import AudioSourceMixer.

Lemma reachable_pattern_lengths m :
  Session.reachable m -> 0 <= nb_steps m ->
  Forall (fun track => len (AudioSourceTrack.steps track) = nb_steps m)
         (tracks m).
Proof.
  intros (wavs & b & sr & n & cb & mb & es & ->) Hn.
  destruct (init_fields wavs b sr n cb mb) as [Hn0 Htracks0].
  rewrite run_keeps_nb_steps, Hn0 in Hn |- *.
  apply (run_keeps_invariant n).
  - intros steps track Hlen _. rewrite track_set_steps_steps. exact Hlen.
  - intros new_bpm track Htrack.
    destruct (track_set_bpm_steps new_bpm track) as [-> _]. exact Htrack.
  - intros now track Htrack.
    destruct (track_start_steps now track) as [-> _]. exact Htrack.
  - intros track Htrack.
    destruct (track_stop_steps track) as [-> _]. exact Htrack.
  - intros now track Htrack. rewrite track_pass_steps. exact Htrack.
  - exact Hn0.
  - rewrite Htracks0. unfold _initialize_tracks.
    apply Forall_fmap, Forall_true. intros wav. unfold compose.
    rewrite track_set_steps_steps. apply py_repeat_len. exact Hn.
Qed.

Lemma join_replicate_length (b : list Byte.byte) (k : nat) :
  length (mjoin (replicate k b)) = (k * length b)%nat.
Proof.
  induction k as [| k IH]; simpl; [reflexivity |].
  rewrite length_app, IH. reflexivity.
Qed.

Lemma py_repeat_bytes_length b n :
  len (py_repeat_bytes b n) = Z.max 0 n * len b.
Proof.
  unfold py_repeat_bytes, len.
  rewrite join_replicate_length, Nat2Z.inj_mul. f_equal. lia.
Qed.

Lemma py_repeat_bytes_Forall (P : Byte.byte -> Prop) b n :
  Forall P b -> Forall P (py_repeat_bytes b n).
Proof.
  intros Hb. unfold py_repeat_bytes.
  induction (Z.to_nat n) as [| k IH]; simpl; [constructor |].
  apply Forall_app. split; assumption.
Qed.

End Snapshots.

(** X15.  The snapshot of [get_mixer_state], taken in any state reached by
    a mixer with a step count that is not negative, is coherent:
    ['track_count'] is the number of entries of ['track_patterns'], and
    each entry reports ['pattern_length'] equal to ['nb_steps'], active
    steps and a current step within the sequence, and the running flag of
    the mixer. *)
Theorem mixer_state_snapshot_is_coherent (m : AudioSourceMixer.t) :
  Session.reachable m ->
  0 <= AudioSourceMixer.nb_steps m ->
  let state := AudioSourceMixer.get_mixer_state m in
  AudioSourceMixer.MixerState.track_count state
  = len (AudioSourceMixer.MixerState.track_patterns state)
  /\ Forall
       (fun info =>
          AudioSourceTrack.PatternInfo.pattern_length info
          = AudioSourceMixer.MixerState.nb_steps state
          /\ Forall (fun i => 0 <= i < AudioSourceMixer.MixerState.nb_steps state)
                    (AudioSourceTrack.PatternInfo.active_steps info)
          /\ 0 <= AudioSourceTrack.PatternInfo.current_step info
          /\ (AudioSourceTrack.PatternInfo.current_step info = 0
              \/ AudioSourceTrack.PatternInfo.current_step info
                 < AudioSourceMixer.MixerState.nb_steps state)
          /\ AudioSourceTrack.PatternInfo.is_running info
             = AudioSourceMixer.MixerState.is_running state)
       (AudioSourceMixer.MixerState.track_patterns state).
Proof.
  intros Hreach Hn state. subst state. simpl. split.
  - unfold len. rewrite length_fmap. reflexivity.
  - pose proof (reachable_pattern_lengths m Hreach Hn) as Hlen.
    pose proof (mixer_tracks_reachable m Hreach) as Htr.
    pose proof (reachable_invariant Session.lifecycle_coherent
                  lifecycle_coherent_init lifecycle_coherent_exec m Hreach)
      as [_ Hlife].
    apply Forall_fmap. rewrite Forall_lookup in *.
    intros i track Hi. unfold compose.
    specialize (Hlen i track Hi). specialize (Hlife i track Hi).
    pose proof (cursor_valid_reachable track (Htr i track Hi)) as [Hlo Hhi].
    simpl in *. repeat split.
    + exact Hlen.
    + apply Forall_forall. intros j Hj.
      apply (active_steps_elem track j) in Hj as (k & -> & Hk).
      apply lookup_lt_Some in Hk. unfold len in Hlen. lia.
    + exact Hlo.
    + rewrite <- Hlen. exact Hhi.
    + apply Hlife.
Qed.

(** X16.  [get_bytes] of the mixer returns silence: every byte is zero,
    and there are two bytes per sample of a step of the first track (2048
    bytes when the mixer has no track). *)
Theorem mixer_get_bytes_is_silence (m : AudioSourceMixer.t) :
  Forall (fun byte => byte = Byte.x00) (AudioSourceMixer.get_bytes m)
  /\ len (AudioSourceMixer.get_bytes m)
     = match AudioSourceMixer.tracks m with
       | track :: _ => 2 * Z.max 0 (AudioSourceTrack.step_nb_samples track)
       | [] => 2048
       end.
Proof.
  unfold AudioSourceMixer.get_bytes.
  destruct (AudioSourceMixer.tracks m) as [| track ts]; split;
    try (apply py_repeat_bytes_Forall; repeat constructor);
    rewrite py_repeat_bytes_length; unfold len; simpl; lia.
Qed.

(** X17.  [get_bytes] of a track does not return silence: its literal is
    written with escaped backslashes, so each sample of a step gives the
    eight characters of the text [\x00\x00], and no byte of the result is
    zero. *)
Theorem track_get_bytes_is_text (self : AudioSourceTrack.t) :
  len (AudioSourceTrack.get_bytes self)
  = 8 * Z.max 0 (AudioSourceTrack.step_nb_samples self)
  /\ Forall (fun byte => byte <> Byte.x00) (AudioSourceTrack.get_bytes self).
Proof.
  unfold AudioSourceTrack.get_bytes. split.
  - rewrite py_repeat_bytes_length. unfold len. simpl. lia.
  - apply py_repeat_bytes_Forall. repeat constructor; discriminate.
Qed.

(** ** The one-shot player *)

Section OneShot.

Import AudioSourceOneShot.

Lemma played_app out1 out2 : played (out1 ++ out2) = played out1 ++ played out2.
Proof. apply omap_app. Qed.

Lemma exec_not_running c self :
  is_running self = false -> c <> Start ->
  is_running (exec c self).1 = false /\ played (exec c self).2 = [].
Proof.
  intros Hoff Hc. destruct c as [| | new_samples ok | volume]; simpl.
  - contradiction.
  - unfold stop. simpl. destruct (current_sound self); split; reflexivity.
  - unfold set_wav_samples. rewrite Hoff. simpl. split; [exact Hoff | reflexivity].
  - split; [exact Hoff |]. unfold set_volume.
    destruct (_ && _); reflexivity.
Qed.

Lemma exec_running c self :
  is_running self = true -> c <> Stop ->
  is_running (exec c self).1 = true
  /\ played (exec c self).2 = accepted [c].
Proof.
  intros Hon Hc. destruct c as [| | new_samples ok | volume]; simpl.
  - split; reflexivity.
  - contradiction.
  - unfold set_wav_samples. rewrite Hon. simpl.
    destruct new_samples as [samples |]; [| split; [exact Hon | reflexivity]].
    destruct ok; simpl; split; first [exact Hon | reflexivity].
  - split; [exact Hon |]. unfold set_volume.
    destruct (_ && _); reflexivity.
Qed.

Lemma run_not_running cs : forall self,
  is_running self = false -> Forall (fun c => c <> Start) cs ->
  is_running (run cs self).1 = false /\ played (run cs self).2 = [].
Proof.
  induction cs as [| c cs IH]; intros self Hoff Hcs;
    [split; [exact Hoff | reflexivity] |].
  apply Forall_cons in Hcs as [Hc Hcs]. cbn [run].
  destruct (exec_not_running c self Hoff Hc) as [Hoff1 Hout1].
  destruct (exec c self) as [self1 out1]. simpl in *.
  destruct (IH self1 Hoff1 Hcs) as [Hoff2 Hout2].
  destruct (run cs self1) as [self2 out2]. simpl in *.
  rewrite played_app, Hout1, Hout2. split; [exact Hoff2 | reflexivity].
Qed.

Lemma run_running cs : forall self,
  is_running self = true -> Forall (fun c => c <> Stop) cs ->
  is_running (run cs self).1 = true /\ played (run cs self).2 = accepted cs.
Proof.
  induction cs as [| c cs IH]; intros self Hon Hcs;
    [split; [exact Hon | reflexivity] |].
  apply Forall_cons in Hcs as [Hc Hcs]. cbn [run].
  destruct (exec_running c self Hon Hc) as [Hon1 Hout1].
  destruct (exec c self) as [self1 out1]. simpl in *.
  destruct (IH self1 Hon1 Hcs) as [Hon2 Hout2].
  destruct (run cs self1) as [self2 out2]. simpl in *.
  rewrite played_app, Hout1, Hout2. split; [exact Hon2 |].
  destruct c as [| | [samples |] [|] | volume]; reflexivity.
Qed.

Lemma volume_calls_in_range cs : forall self,
  Forall (fun c => match c with
                   | MixerSetVolume volume => (0 <= volume /\ volume <= 1)%Q
                   | _ => True
                   end) (run cs self).2.
Proof.
  induction cs as [| c cs IH]; intros self; [constructor |]. cbn [run].
  assert (Hhead : Forall (fun c => match c with
                                   | MixerSetVolume volume =>
                                       (0 <= volume /\ volume <= 1)%Q
                                   | _ => True
                                   end) (exec c self).2).
  { destruct c as [| | new_samples ok | volume]; simpl.
    - constructor.
    - unfold stop. simpl. destruct (current_sound self); repeat constructor.
    - unfold set_wav_samples. destruct (negb (is_running self)); [constructor |].
      destruct new_samples; [| constructor].
      destruct ok; repeat constructor.
    - unfold set_volume.
      destruct (Qle_bool 0 volume) eqn:Hlo; [| constructor].
      destruct (Qle_bool volume 1) eqn:Hhi; [| constructor].
      apply Qle_bool_iff in Hlo, Hhi. repeat constructor; assumption. }
  destruct (exec c self) as [self1 out1]. specialize (IH self1).
  destruct (run cs self1) as [self2 out2]. simpl in *.
  apply Forall_app. split; assumption.
Qed.

End OneShot.

(** X18.  A one-shot player that is not running plays nothing: whatever
    buffers are handed to [set_wav_samples], and whatever [stop] and
    [set_volume] calls are made, no sound is played as long as [start] is
    not called. *)
Theorem one_shot_plays_nothing_before_start
    (self : AudioSourceOneShot.t) (cs : list AudioSourceOneShot.call) :
  AudioSourceOneShot.is_running self = false ->
  Forall (fun c => c <> AudioSourceOneShot.Start) cs ->
  AudioSourceOneShot.played (AudioSourceOneShot.run cs self).2 = []
  /\ AudioSourceOneShot.is_running (AudioSourceOneShot.run cs self).1 = false.
Proof.
  intros Hoff Hcs. destruct (run_not_running cs self Hoff Hcs) as [H1 H2].
  split; assumption.
Qed.

(** X19.  A running one-shot player starts one sound for every buffer
    pygame accepts, in the order of the calls, and nothing else: a buffer
    that is refused, a [None], or a volume change neither plays anything
    nor disturbs the calls that follow. *)
Theorem one_shot_plays_each_accepted_buffer
    (self : AudioSourceOneShot.t) (cs : list AudioSourceOneShot.call) :
  AudioSourceOneShot.is_running self = true ->
  Forall (fun c => c <> AudioSourceOneShot.Stop) cs ->
  AudioSourceOneShot.played (AudioSourceOneShot.run cs self).2
  = AudioSourceOneShot.accepted cs
  /\ AudioSourceOneShot.is_running (AudioSourceOneShot.run cs self).1 = true.
Proof.
  intros Hon Hcs. destruct (run_running cs self Hon Hcs) as [H1 H2].
  split; assumption.
Qed.

(** X20.  The one-shot player never sets the volume of pygame outside
    [0.0, 1.0]: over any sequence of calls, every volume that reaches
    [pygame.mixer.set_volume] lies in that range. *)
Theorem one_shot_volume_stays_in_range
    (self : AudioSourceOneShot.t) (cs : list AudioSourceOneShot.call) :
  Forall (fun c => match c with
                   | AudioSourceOneShot.MixerSetVolume volume =>
                       (0 <= volume /\ volume <= 1)%Q
                   | _ => True
                   end)
         (AudioSourceOneShot.run cs self).2.
Proof.
  pose proof (volume_calls_in_range cs self) as Hall.
  eapply Forall_impl; [exact Hall |].
  intros c Hc. exact Hc.
Qed.

(** ** A mixer fresh from the engine *)

Section FreshMixer.

Import AudioSourceMixer.
Import Session.

Lemma silent_pass now track :
  Forall (fun step => step = 0) (AudioSourceTrack.steps track) ->
  (AudioSourceTrack._sequencer_loop now track).2 = None
  \/ (AudioSourceTrack._sequencer_loop now track).2 = Some [].
Proof.
  intros Hzero.
  assert (Hquiet : AudioSourceTrack._process_current_step track = ([], None)).
  { unfold AudioSourceTrack._process_current_step.
    rewrite no_steps_activated_without_one; [reflexivity |].
    eapply Forall_impl; [exact Hzero |]. simpl. intros step ->. lia. }
  unfold AudioSourceTrack._sequencer_loop.
  destruct (AudioSourceTrack.playback_thread track); [| left; reflexivity].
  destruct (_ && _); [| left; reflexivity].
  destruct (Qle_bool _ _); [| left; reflexivity].
  rewrite Hquiet. right. reflexivity.
Qed.

Lemma all_silent_exec e m i :
  all_silent m ->
  (forall idx steps, e <> CallSetSteps idx steps) ->
  all_silent (exec e m).1
  /\ Forall (fun d => d = false) (trigger_decisions i (exec e m).2).
Proof.
  unfold all_silent. intros Hm He.
  destruct e as [idx steps | new_bpm | | | now | | now | j now]; simpl.
  - exfalso. exact (He idx steps eq_refl).
  - split; [| constructor]. rewrite set_bpm_tracks_of.
    destruct (new_bpm <? min_bpm m); [exact Hm |].
    apply set_bpm_tracks_invariant; [| exact Hm].
    intros b track Htrack.
    destruct (track_set_bpm_steps b track) as [-> _]. exact Htrack.
  - split; [exact Hm | constructor].
  - split; [exact Hm | constructor].
  - split; [| constructor]. unfold start.
    destruct (is_running m); [exact Hm |]. simpl.
    apply Forall_fmap. eapply Forall_impl; [exact Hm |].
    intros track Htrack. unfold compose.
    destruct (track_start_steps now track) as [-> _]. exact Htrack.
  - split; [| constructor]. unfold stop.
    destruct (is_running m); [| exact Hm]. simpl.
    apply Forall_fmap. eapply Forall_impl; [exact Hm |].
    intros track Htrack. unfold compose.
    destruct (track_stop_steps track) as [-> _]. exact Htrack.
  - pose proof (mixer_master_pass_frame now m) as (_ & _ & _ & _ & _ & _ & _ & Htr).
    destruct (_master_sequencer_loop now m) as [m' [effs |]]; simpl in *;
      rewrite Htr; (split; [exact Hm | constructor]).
  - destruct (tracks m !! j) as [track |] eqn:Hj; [| split; [exact Hm | constructor]].
    pose proof Hm as Hall. rewrite Forall_lookup in Hall.
    specialize (Hall j track Hj).
    pose proof (track_pass_steps now track) as Hsteps.
    pose proof (silent_pass now track Hall) as Hpass.
    destruct (AudioSourceTrack._sequencer_loop now track) as [track' tick].
    simpl in *. split.
    + apply Forall_insert; [exact Hm |]. rewrite Hsteps. exact Hall.
    + destruct Hpass as [-> | ->]; [constructor |].
      unfold trigger_decisions. simpl.
      destruct (bool_decide (j = i)); repeat constructor.
Qed.

Lemma all_silent_run i es : forall m,
  all_silent m ->
  Forall (fun e => forall idx steps, e <> CallSetSteps idx steps) es ->
  Forall (fun d => d = false) (trigger_decisions i (run es m).2).
Proof.
  induction es as [| e es IH]; intros m Hm Hes; [constructor |].
  apply Forall_cons in Hes as [He Hes]. cbn [run].
  destruct (all_silent_exec e m i Hm He) as [Hm1 Hd1].
  destruct (exec e m) as [m1 obs1]. simpl in *.
  specialize (IH m1 Hm1 Hes).
  destruct (run es m1) as [m2 obs2]. simpl in *.
  rewrite trigger_decisions_app. apply Forall_app. split; assumption.
Qed.

Lemma create_mixer_all_silent wavs b n cb mb now :
  all_silent (AudioEngine.create_mixer wavs b n cb mb now)
  /\ is_playing (AudioEngine.create_mixer wavs b n cb mb now) = false.
Proof.
  unfold AudioEngine.create_mixer.
  set (m0 := __init__ wavs b AudioEngine.SAMPLE_RATE n cb mb).
  assert (Hm0 : all_silent m0).
  { unfold all_silent, m0.
    destruct (init_fields wavs b AudioEngine.SAMPLE_RATE n cb mb) as [_ ->].
    unfold _initialize_tracks. apply Forall_fmap, Forall_true.
    intros wav. unfold compose. rewrite track_set_steps_steps.
    unfold py_repeat. apply Forall_replicate. reflexivity. }
  assert (Hp0 : is_playing m0 = false).
  { unfold m0, __init__, _calculate_step_duration. simpl.
    destruct (0 <? b); reflexivity. }
  split.
  - destruct (all_silent_exec (CallStart now) m0 0%nat Hm0) as [H _];
      [discriminate | exact H].
  - destruct (mixer_start_frame now m0) as (_ & _ & _ & _ & -> & _). exact Hp0.
Qed.

End FreshMixer.

(** X21.  A mixer fresh from [AudioEngine.create_mixer] is running but
    makes no sound and shows nothing: as long as [set_steps] is not
    called no track ever triggers its sample, and as long as [audio_play]
    is not called the notification callback is never invoked. *)
Theorem fresh_mixer_is_silent
    (all_wav_samples : list (list Z)) (bpm nb_steps : Z)
    (callback : option AudioSourceMixer.callable) (min_bpm : Z) (now : Q)
    (es : list Session.event) (i : nat) :
  let m := AudioEngine.create_mixer all_wav_samples bpm nb_steps callback
                                    min_bpm now in
  AudioSourceMixer.is_running m = true
  /\ (Forall (fun e => forall idx steps, e <> Session.CallSetSteps idx steps) es ->
      Forall (fun d => d = false)
             (Session.trigger_decisions i (Session.run es m).2))
  /\ (Forall (fun e => e <> Session.CallAudioPlay) es ->
      Session.notifications (Session.run es m).2 = []).
Proof.
  intros m. subst m.
  destruct (create_mixer_all_silent all_wav_samples bpm nb_steps callback
              min_bpm now) as [Hsilent Hplay].
  split; [| split].
  - unfold AudioEngine.create_mixer, AudioSourceMixer.start.
    destruct (AudioSourceMixer.is_running
                (AudioSourceMixer.__init__ all_wav_samples bpm
                   AudioEngine.SAMPLE_RATE nb_steps callback min_bpm))
      eqn:Hrun; [exact Hrun | reflexivity].
  - intros Hes. apply all_silent_run; assumption.
  - intros Hes. apply not_playing_run; assumption.
Qed.

(** ** The sound kit *)

(** X22.  [get_all_samples] and [get_sound_at] agree with [get_nb_tracks]:
    there is one sample buffer per track; for an index from 0 up to the
    number of tracks [get_sound_at] returns the sound whose samples stand
    at that index of [get_all_samples]; for an index at or above the
    number of tracks it returns [None]. *)
Theorem sound_kit_lookup_matches_samples
    (soundkit : SoundKitService.SoundKit) (index : Z) :
  len (SoundKitService.get_all_samples soundkit)
  = SoundKitService.get_nb_tracks soundkit
  /\ (0 <= index < SoundKitService.get_nb_tracks soundkit ->
      exists sound,
        SoundKitService.get_sound_at index soundkit
        = SoundKitService.ReturnedSound sound
        /\ py_getitem (SoundKitService.get_all_samples soundkit) index
           = Some (SoundKitService.samples sound))
  /\ (SoundKitService.get_nb_tracks soundkit <= index ->
      SoundKitService.get_sound_at index soundkit
      = SoundKitService.ReturnedNone).
Proof.
  unfold SoundKitService.get_nb_tracks, SoundKitService.get_all_samples,
    SoundKitService.get_sound_at.
  split; [unfold len; rewrite length_fmap; reflexivity |]. split.
  - intros Hrange.
    destruct (Z.leb_spec (len soundkit) index) as [Hge | _]; [lia |].
    destruct (py_getitem_in_range soundkit index Hrange) as [sound Hsound].
    rewrite Hsound. exists sound. split; [reflexivity |].
    unfold py_getitem in *. destruct (Z.leb_spec 0 index); [| lia].
    rewrite list_lookup_fmap, Hsound. reflexivity.
  - intros Hge. destruct (Z.leb_spec (len soundkit) index); [reflexivity | lia].
Qed.

(** X23.  [get_sound_at] tests the index only from above.  A negative
    index down to minus the number of tracks returns a sound, counted
    from the end of the kit, instead of [None]; a lower one raises
    [IndexError]. *)
Theorem sound_kit_negative_index
    (soundkit : SoundKitService.SoundKit) (index : Z) :
  index < 0 ->
  (- len soundkit <= index ->
   exists sound,
     soundkit !! Z.to_nat (len soundkit + index) = Some sound
     /\ SoundKitService.get_sound_at index soundkit
        = SoundKitService.ReturnedSound sound)
  /\ (index < - len soundkit ->
      SoundKitService.get_sound_at index soundkit
      = SoundKitService.RaisedIndexError).
Proof.
  intros Hneg. unfold SoundKitService.get_sound_at, py_getitem.
  pose proof (Nat2Z.is_nonneg (length soundkit)) as Hlen. fold (len soundkit) in Hlen.
  destruct (Z.leb_spec (len soundkit) index) as [Hge | _]; [lia |].
  destruct (Z.leb_spec 0 index) as [Hpos | _]; [lia |].
  split.
  - intros Hlow. destruct (Z.leb_spec (- len soundkit) index); [| lia].
    destruct (lookup_lt_is_Some_2 soundkit (Z.to_nat (len soundkit + index)))
      as [sound Hsound]; [unfold len in *; lia |].
    exists sound. split; [exact Hsound |]. rewrite Hsound. reflexivity.
  - intros Hlow. destruct (Z.leb_spec (- len soundkit) index); [lia | reflexivity].
Qed.

(** ** The play indicator *)

Section Indicator.

Import PlayIndicatorWidget.

Lemma set_current_in_range index self :
  0 <= index < len (lights self) ->
  lights (set_current_step_index index self)
  = <[Z.to_nat index := indicator_light_on]>
      (replicate (length (lights self)) indicator_light_off).
Proof.
  intros [Hlo Hhi]. unfold set_current_step_index.
  destruct (Z.leb_spec (len (lights self)) index); [lia |]. simpl.
  apply list_eq. intros j. rewrite list_lookup_imap.
  rewrite list_lookup_insert, length_replicate.
  destruct (lights self !! j) as [old |] eqn:Hj; simpl.
  - apply lookup_lt_Some in Hj.
    destruct (Z.eqb_spec (Z.of_nat j) index) as [Heq | Hne].
    + rewrite decide_True by (unfold len in *; split; lia). reflexivity.
    + rewrite decide_False by (intros [? ?]; lia).
      rewrite lookup_replicate_2 by exact Hj. reflexivity.
  - apply lookup_ge_None in Hj.
    rewrite decide_False by (unfold len in *; intros [? ?]; lia).
    symmetry. apply lookup_replicate_None. exact Hj.
Qed.

Lemma set_current_negative index self :
  index < 0 ->
  lights (set_current_step_index index self)
  = replicate (length (lights self)) indicator_light_off.
Proof.
  intros Hneg. unfold set_current_step_index.
  pose proof (Nat2Z.is_nonneg (length (lights self))) as Hlen.
  destruct (Z.leb_spec (len (lights self)) index);
    [unfold len in *; lia |]. simpl.
  apply list_eq. intros j. rewrite list_lookup_imap.
  destruct (lights self !! j) as [old |] eqn:Hj; simpl.
  - apply lookup_lt_Some in Hj.
    destruct (Z.eqb_spec (Z.of_nat j) index); [lia |].
    rewrite lookup_replicate_2 by exact Hj. reflexivity.
  - apply lookup_ge_None in Hj. symmetry.
    apply lookup_replicate_None. exact Hj.
Qed.

Lemma show_all_last n : forall indices self,
  length (lights self) = n ->
  Forall (fun d => 0 <= d < Z.of_nat n) indices ->
  lights (show_all indices self)
  = match last indices with
    | Some d =>
        <[Z.to_nat d := indicator_light_on]> (replicate n indicator_light_off)
    | None => lights self
    end.
Proof.
  induction indices as [| d indices IH]; intros self Hlen Hall; [reflexivity |].
  apply Forall_cons in Hall as [Hd Hall].
  change (show_all (d :: indices) self)
    with (show_all indices (set_current_step_index d self)).
  pose proof (set_current_in_range d self) as Hset.
  rewrite Hlen in Hset. specialize (Hset ltac:(unfold len; lia)).
  rewrite IH; [| rewrite Hset, length_insert, length_replicate; reflexivity
               | exact Hall].
  destruct indices as [| d' indices]; [exact Hset |].
  rewrite last_cons_cons.
  destruct (last (d' :: indices)) eqn:Hlast; [reflexivity |].
  apply last_None in Hlast. discriminate.
Qed.

End Indicator.

(** X24.  [set_current_step_index] on an indicator: an index at or beyond
    the number of lights changes nothing; an index from 0 up to that
    number lights exactly the light at the index and darkens every other;
    a negative index passes the test and darkens every light. *)
Theorem indicator_shows_one_light
    (self : PlayIndicatorWidget.t) (index : Z) :
  let after := PlayIndicatorWidget.set_current_step_index index self in
  let n := length (PlayIndicatorWidget.lights self) in
  (Z.of_nat n <= index -> after = self)
  /\ (0 <= index < Z.of_nat n ->
      PlayIndicatorWidget.lights after
      = <[Z.to_nat index := PlayIndicatorWidget.indicator_light_on]>
          (replicate n PlayIndicatorWidget.indicator_light_off))
  /\ (index < 0 ->
      PlayIndicatorWidget.lights after
      = replicate n PlayIndicatorWidget.indicator_light_off).
Proof.
  intros after n. subst after n. split; [| split].
  - intros Hge. unfold PlayIndicatorWidget.set_current_step_index.
    destruct (Z.leb_spec (len (PlayIndicatorWidget.lights self)) index);
      [reflexivity | unfold len in *; lia].
  - intros Hrange. apply set_current_in_range. exact Hrange.
  - intros Hneg. apply set_current_negative. exact Hneg.
Qed.

(** X25.  The display follows the mixer: an indicator set to the step
    count of a mixer with at least two steps, then given every index the
    mixer notifies, one call of [set_current_step_index] each, has exactly
    the light of the last index on (none before the first
    notification). *)
Theorem indicator_follows_mixer
    (m : AudioSourceMixer.t) (es : list Session.event) :
  Session.reachable m ->
  2 <= AudioSourceMixer.nb_steps m ->
  let n := Z.to_nat (AudioSourceMixer.nb_steps m) in
  let indices := Session.notifications (Session.run es m).2 in
  PlayIndicatorWidget.lights
    (PlayIndicatorWidget.show_all indices
       (PlayIndicatorWidget.set_nb_steps (AudioSourceMixer.nb_steps m)
          PlayIndicatorWidget.initial))
  = match last indices with
    | Some d =>
        <[Z.to_nat d := PlayIndicatorWidget.indicator_light_on]>
          (replicate n PlayIndicatorWidget.indicator_light_off)
    | None => replicate n PlayIndicatorWidget.indicator_light_off
    end.
Proof.
  intros Hreach HN n indices. subst n indices.
  assert (Hinit : PlayIndicatorWidget.lights
                    (PlayIndicatorWidget.set_nb_steps
                       (AudioSourceMixer.nb_steps m) PlayIndicatorWidget.initial)
                  = replicate (Z.to_nat (AudioSourceMixer.nb_steps m))
                              PlayIndicatorWidget.indicator_light_off).
  { unfold PlayIndicatorWidget.set_nb_steps, PlayIndicatorWidget.initial. simpl.
    destruct (Z.eqb_spec (AudioSourceMixer.nb_steps m) 0); [lia | reflexivity]. }
  rewrite (show_all_last (Z.to_nat (AudioSourceMixer.nb_steps m))).
  - rewrite Hinit. reflexivity.
  - rewrite Hinit. apply length_replicate.
  - rewrite Z2Nat.id by lia. apply notifications_in_range_run; [| exact HN].
    apply (reachable_invariant Session.master_cursor_valid);
      [apply master_cursor_valid_init | apply master_cursor_valid_exec
       | exact Hreach].
Qed.

(** ** The track widget *)

Section Widget.

Import TrackWidget.

Lemma after_presses_snoc presses j n :
  after_presses (presses ++ [j]) n = toggle j (after_presses presses n).
Proof. unfold after_presses. rewrite foldl_app. reflexivity. Qed.

Lemma group_of_four (i : Z) :
  0 <= i -> ((Z.quot i 4) mod 2 =? 0) = (i mod 8 <? 4).
Proof.
  intros Hi. rewrite Z.quot_div_nonneg by lia.
  destruct (Z.eqb_spec ((i / 4) mod 2) 0), (Z.ltb_spec (i mod 8) 4);
    try reflexivity; exfalso; Z.to_euclidean_division_equations; lia.
Qed.

Lemma after_presses_button presses : forall n (i : nat),
  nb_steps (after_presses presses n) = n
  /\ length (step_buttons (after_presses presses n)) = Z.to_nat n
  /\ ((i < Z.to_nat n)%nat ->
      step_buttons (after_presses presses n) !! i
      = Some (mkButton
                (if Nat.odd (count_occ Nat.eq_dec presses i) then down else normal)
                (if Z.of_nat i mod 8 <? 4 then step_normal1 else step_normal2))).
Proof.
  induction presses as [| j presses IH] using rev_ind; intros n i.
  - unfold after_presses, __init__, py_range. simpl.
    split; [reflexivity |]. split; [rewrite length_fmap, length_seqZ; reflexivity |].
    intros Hi. rewrite list_lookup_fmap, lookup_seqZ_lt by lia. simpl.
    rewrite group_of_four by lia. reflexivity.
  - rewrite after_presses_snoc. destruct (IH n i) as (Hn & Hlen & Hbutton).
    unfold toggle. simpl. split; [exact Hn |].
    split; [rewrite length_alter; exact Hlen |].
    intros Hi. specialize (Hbutton Hi).
    rewrite count_occ_app. simpl.
    destruct (Nat.eq_dec j i) as [-> | Hne].
    + rewrite list_lookup_alter_eq, Hbutton. simpl.
      replace (count_occ Nat.eq_dec presses i + 1)%nat with (S (count_occ Nat.eq_dec presses i)) by lia.
      rewrite Nat.odd_succ, <- Nat.negb_odd.
      destruct (Nat.odd (count_occ Nat.eq_dec presses i)); reflexivity.
    + rewrite list_lookup_alter_ne by exact Hne. rewrite Hbutton.
      rewrite Nat.add_0_r. reflexivity.
Qed.

Lemma current_pattern_of_buttons self :
  length (step_buttons self) = Z.to_nat (nb_steps self) ->
  current_pattern self
  = Some ((fun button => match state button with
                         | down => 1
                         | normal => 0
                         end) <$> step_buttons self).
Proof.
  intros Hlen. unfold current_pattern, py_range.
  apply mapM_Some_2, Forall2_same_length_lookup_2.
  - rewrite length_fmap, length_seqZ, Hlen. reflexivity.
  - intros k i flag Hi Hflag. apply lookup_seqZ in Hi as [-> Hk].
    rewrite list_lookup_fmap in Hflag.
    unfold py_getitem. destruct (Z.leb_spec 0 (0 + Z.of_nat k)); [| lia].
    replace (Z.to_nat (0 + Z.of_nat k)) with k by lia.
    destruct (step_buttons self !! k) as [button |]; [| discriminate].
    simpl in *. congruence.
Qed.

Lemma pattern_after_presses presses n :
  current_pattern (after_presses presses n)
  = Some ((fun i : nat => if Nat.odd (count_occ Nat.eq_dec presses i) then 1 else 0)
            <$> seq 0 (Z.to_nat n)).
Proof.
  destruct (after_presses_button presses n 0%nat) as (Hn & Hlen & _).
  rewrite current_pattern_of_buttons by (rewrite Hn; exact Hlen).
  f_equal. apply list_eq. intros i. rewrite !list_lookup_fmap.
  destruct (decide (i < Z.to_nat n)%nat) as [Hi | Hi].
  - destruct (after_presses_button presses n i) as (_ & _ & Hbutton).
    rewrite (Hbutton Hi), lookup_seq_lt by exact Hi. simpl.
    destruct (Nat.odd (count_occ Nat.eq_dec presses i)); reflexivity.
  - rewrite (lookup_ge_None_2 (step_buttons _)) by lia.
    rewrite (lookup_ge_None_2 (seq 0 _)) by (rewrite length_seq; lia).
    reflexivity.
Qed.

End Widget.

(** X26.  The pattern a track widget sends to its track is decided by the
    parity of the presses: for a widget built with [nb_steps] buttons and
    pressed any number of times, [on_step_button_state] never fails on
    [step_buttons[i]], and builds a pattern of [nb_steps] flags (none for
    a negative count) whose flag [i] is 1 exactly when button [i] was
    pressed an odd number of times. *)
Theorem widget_pattern_follows_presses (presses : list nat) (nb_steps : Z) :
  TrackWidget.current_pattern (TrackWidget.after_presses presses nb_steps)
  = Some ((fun i : nat =>
             if Nat.odd (count_occ Nat.eq_dec presses i) then 1 else 0)
            <$> seq 0 (Z.to_nat nb_steps)).
Proof.
  pose proof (after_presses_button presses nb_steps 0%nat) as (Hn & Hlen & _).
  rewrite <- Hn in Hlen at 2.
  rewrite (pattern_after_presses presses nb_steps). reflexivity.
Qed.

(** X27.  Editing the pattern of a track from its widget while it plays
    does not move the cursor of the track: when the track already holds a
    pattern with as many steps as the widget has buttons -- as every
    track of a mixer does -- [on_step_button_state] returns normally,
    stores the pattern of the widget and leaves [current_step_index]
    where it was. *)
Theorem widget_edit_keeps_cursor
    (presses : list nat) (nb_steps : Z) (track : AudioSourceTrack.t) :
  len (AudioSourceTrack.steps track) = Z.max 0 nb_steps ->
  exists steps,
    TrackWidget.current_pattern (TrackWidget.after_presses presses nb_steps)
    = Some steps
    /\ TrackWidget.on_step_button_state
         (TrackWidget.after_presses presses nb_steps) track
       = Returned tt (AudioSourceTrack.set_steps steps track)
    /\ AudioSourceTrack.steps (AudioSourceTrack.set_steps steps track) = steps
    /\ len steps = len (AudioSourceTrack.steps track)
    /\ AudioSourceTrack.current_step_index
         (AudioSourceTrack.set_steps steps track)
       = AudioSourceTrack.current_step_index track.
Proof.
  intros Hlen. eexists. split; [apply pattern_after_presses |].
  unfold TrackWidget.on_step_button_state. rewrite pattern_after_presses.
  split; [reflexivity |]. split; [apply track_set_steps_steps |].
  assert (Hsame : len ((fun i : nat =>
                          if Nat.odd (count_occ Nat.eq_dec presses i)
                          then 1 else 0) <$> seq 0 (Z.to_nat nb_steps))
                  = len (AudioSourceTrack.steps track)).
  { rewrite Hlen. unfold len. rewrite length_fmap, length_seq. lia. }
  split; [exact Hsame |].
  unfold AudioSourceTrack.set_steps. rewrite Hsame, Z.eqb_refl. reflexivity.
Qed.

(** X28.  What the widget sets is what [get_pattern_info] reports: after
    [on_step_button_state], the ['active_steps'] of the track are exactly
    the buttons of the widget that were pressed an odd number of times. *)
Theorem widget_presses_show_as_active_steps
    (presses : list nat) (nb_steps : Z) (track : AudioSourceTrack.t) (i : Z) :
  i ∈ AudioSourceTrack.PatternInfo.active_steps
        (AudioSourceTrack.get_pattern_info
           (state_of (TrackWidget.on_step_button_state
                        (TrackWidget.after_presses presses nb_steps) track)))
  <-> exists k : nat,
        i = Z.of_nat k /\ Z.of_nat k < nb_steps
        /\ Nat.odd (count_occ Nat.eq_dec presses k) = true.
Proof.
  unfold TrackWidget.on_step_button_state. rewrite pattern_after_presses.
  cbn [state_of]. rewrite active_steps_elem, track_set_steps_steps. split.
  - intros (k & -> & Hk). exists k. rewrite list_lookup_fmap in Hk.
    destruct (seq 0 (Z.to_nat nb_steps) !! k) as [j |] eqn:Hj; [| discriminate].
    apply lookup_seq in Hj as [-> Hlt]. simpl in Hk.
    split; [reflexivity |]. split; [lia |].
    destruct (Nat.odd (count_occ Nat.eq_dec presses k)); [reflexivity | discriminate].
  - intros (k & -> & Hlt & Hodd). exists k. split; [reflexivity |].
    rewrite list_lookup_fmap, lookup_seq_lt by lia. simpl.
    rewrite Hodd. reflexivity.
Qed.

(** X29.  The step buttons of a track widget carry their background in
    groups of four: button [i] has the first image when [i mod 8 < 4] and
    the second otherwise, and pressing buttons never changes it. *)
Theorem widget_backgrounds_alternate_by_four
    (presses : list nat) (nb_steps : Z) (i : nat) :
  Z.of_nat i < nb_steps ->
  TrackWidget.background_normal
    <$> TrackWidget.step_buttons (TrackWidget.after_presses presses nb_steps) !! i
  = Some (if Z.of_nat i mod 8 <? 4
          then TrackWidget.step_normal1 else TrackWidget.step_normal2).
Proof.
  intros Hi.
  destruct (after_presses_button presses nb_steps i) as (_ & _ & Hbutton).
  rewrite Hbutton by lia. reflexivity.
Qed.

(** ** The pace of the loops *)

Section Pace.

Lemma not_due (d t1 t2 : Q) :
  (t2 - t1 < d)%Q -> Qle_bool d (t2 - t1) = false.
Proof.
  intros Hlt. apply not_true_iff_false. intros Hle.
  apply Qle_bool_iff in Hle. exact (Qlt_not_le _ _ Hlt Hle).
Qed.

Lemma track_pass_then_wait t1 t2 self effs :
  (AudioSourceTrack._sequencer_loop t1 self).2 = Some effs ->
  (t2 - t1 < AudioSourceTrack.step_duration self)%Q ->
  (AudioSourceTrack._sequencer_loop
     t2 (AudioSourceTrack._sequencer_loop t1 self).1).2 = None.
Proof.
  intros Hfirst Hsoon. unfold AudioSourceTrack._sequencer_loop in Hfirst |- *.
  destruct (AudioSourceTrack.playback_thread self) as [last |]; [| discriminate].
  destruct (AudioSourceTrack.is_running self
            && negb (AudioSourceTrack.stop_event self)) eqn:Halive;
    [| discriminate].
  destruct (Qle_bool _ _); [| discriminate].
  destruct (AudioSourceTrack._process_current_step self) as [effs' [e |]];
    simpl; [reflexivity |].
  unfold AudioSourceTrack._advance_step. simpl.
  destruct (_ <=? _); simpl; rewrite Halive, (not_due _ _ _ Hsoon); reflexivity.
Qed.

Lemma master_pass_then_wait t1 t2 m effs :
  (AudioSourceMixer._master_sequencer_loop t1 m).2 = Some effs ->
  (t2 - t1 < AudioSourceMixer.step_duration m)%Q ->
  (AudioSourceMixer._master_sequencer_loop
     t2 (AudioSourceMixer._master_sequencer_loop t1 m).1).2 = None.
Proof.
  intros Hfirst Hsoon.
  unfold AudioSourceMixer._master_sequencer_loop in Hfirst |- *.
  destruct (AudioSourceMixer.sequencer_thread m) as [last |]; [| discriminate].
  destruct (AudioSourceMixer.is_running m
            && negb (AudioSourceMixer.stop_event m)) eqn:Halive;
    [| discriminate].
  destruct (AudioSourceMixer.is_playing m
            && Qle_bool (AudioSourceMixer.step_duration m) (t1 - last));
    [| discriminate].
  unfold AudioSourceMixer._process_master_step. simpl.
  destruct (_ <=? _); simpl; rewrite Halive, (not_due _ _ _ Hsoon);
    rewrite andb_false_r; reflexivity.
Qed.

End Pace.

(** X30.  Neither loop processes two steps less than one step duration
    apart: after a pass that processed a step at clock reading [t1], a
    pass at [t2] with [t2 - t1 < step_duration] processes nothing, for the
    loop of a track and for the master loop of the mixer. *)
Theorem loops_keep_the_step_duration
    (track : AudioSourceTrack.t) (m : AudioSourceMixer.t)
    (t1 t2 : Q) (track_effs master_effs : list effect) :
  (AudioSourceTrack._sequencer_loop t1 track).2 = Some track_effs ->
  (AudioSourceMixer._master_sequencer_loop t1 m).2 = Some master_effs ->
  (t2 - t1 < AudioSourceTrack.step_duration track)%Q ->
  (t2 - t1 < AudioSourceMixer.step_duration m)%Q ->
  (AudioSourceTrack._sequencer_loop
     t2 (AudioSourceTrack._sequencer_loop t1 track).1).2 = None
  /\ (AudioSourceMixer._master_sequencer_loop
        t2 (AudioSourceMixer._master_sequencer_loop t1 m).1).2 = None.
Proof.
  intros Htrack Hmaster Hsoon_track Hsoon_master. split.
  - exact (track_pass_then_wait t1 t2 track track_effs Htrack Hsoon_track).
  - exact (master_pass_then_wait t1 t2 m master_effs Hmaster Hsoon_master).
Qed.

(** ** The properties at work on concrete objects *)

Lemma played_machine_reachable : Session.reachable Examples.played_machine.
Proof.
  unfold Session.reachable, Examples.played_machine, Examples.drum_machine.
  do 6 eexists. eexists. reflexivity.
Qed.

Lemma master_cursor_stays_in_sequence_witness :
  0 <= AudioSourceMixer.current_step_index Examples.played_machine
  /\ (AudioSourceMixer.current_step_index Examples.played_machine = 0
      \/ AudioSourceMixer.current_step_index Examples.played_machine
         < AudioSourceMixer.nb_steps Examples.played_machine).
Proof.
  apply (master_cursor_stays_in_sequence Examples.played_machine).
  apply played_machine_reachable.
Defined.

Lemma notifications_are_step_indices_witness :
  Forall (fun d => 0 <= d < AudioSourceMixer.nb_steps Examples.played_machine)
         (Session.notifications
            (Session.run Examples.scenario_passes Examples.played_machine).2).
Proof.
  apply (notifications_are_step_indices
           Examples.played_machine Examples.scenario_passes).
  - apply played_machine_reachable.
  - vm_compute. discriminate.
Defined.

Lemma display_waits_for_audio_play_witness :
  Session.notifications
    (Session.run (Examples.scenario_setup ++ Examples.scenario_passes)
                 Examples.drum_machine).2 = [].
Proof.
  apply (display_waits_for_audio_play
           Examples.drum_machine
           (Examples.scenario_setup ++ Examples.scenario_passes)).
  - reflexivity.
  - repeat constructor; discriminate.
Defined.

Lemma stop_mutes_display_until_play_witness :
  Session.notifications
    (Session.run (Session.CallStop
                  :: Session.CallStart 1%Q :: Examples.scenario_passes)
                 Examples.played_machine).2 = [].
Proof.
  apply (stop_mutes_display_until_play
           Examples.played_machine
           (Session.CallStart 1%Q :: Examples.scenario_passes)).
  - vm_compute. reflexivity.
  - repeat constructor; discriminate.
Defined.

Lemma tracks_run_with_the_mixer_witness :
  Forall (fun track =>
            AudioSourceTrack.is_running track
            = AudioSourceMixer.is_running Examples.played_machine
            /\ (AudioSourceTrack.is_running track = true ->
                AudioSourceTrack.stop_event track = false))
         (AudioSourceMixer.tracks Examples.played_machine).
Proof.
  apply (tracks_run_with_the_mixer Examples.played_machine).
  apply played_machine_reachable.
Defined.



Lemma mixer_set_bpm_below_one_witness :
  AudioSourceMixer.bpm
    (state_of (AudioSourceMixer.set_bpm 0 Examples.no_floor_machine)) = 0.
Proof.
  apply (mixer_set_bpm_below_one Examples.no_floor_machine 0).
  - vm_compute. discriminate.
  - lia.
Defined.

Lemma mixer_state_snapshot_is_coherent_witness :
  AudioSourceMixer.MixerState.track_count
    (AudioSourceMixer.get_mixer_state Examples.played_machine)
  = len (AudioSourceMixer.MixerState.track_patterns
           (AudioSourceMixer.get_mixer_state Examples.played_machine)).
Proof.
  apply (mixer_state_snapshot_is_coherent Examples.played_machine).
  - apply played_machine_reachable.
  - vm_compute. discriminate.
Defined.

Lemma one_shot_plays_nothing_before_start_witness :
  AudioSourceOneShot.played
    (AudioSourceOneShot.run
       [AudioSourceOneShot.SetWavSamples (Some [100; -100]) true;
        AudioSourceOneShot.SetVolume (1 # 2);
        AudioSourceOneShot.Stop;
        AudioSourceOneShot.SetWavSamples (Some [50]) true]
       AudioSourceOneShot.__init__).2 = [].
Proof.
  apply (one_shot_plays_nothing_before_start
           AudioSourceOneShot.__init__
           [AudioSourceOneShot.SetWavSamples (Some [100; -100]) true;
            AudioSourceOneShot.SetVolume (1 # 2);
            AudioSourceOneShot.Stop;
            AudioSourceOneShot.SetWavSamples (Some [50]) true]).
  - reflexivity.
  - repeat constructor; discriminate.
Defined.

Lemma one_shot_plays_each_accepted_buffer_witness :
  AudioSourceOneShot.played
    (AudioSourceOneShot.run
       [AudioSourceOneShot.SetWavSamples (Some [100; -100]) true;
        AudioSourceOneShot.SetWavSamples (Some [7]) false;
        AudioSourceOneShot.SetWavSamples None true;
        AudioSourceOneShot.SetWavSamples (Some [50]) true]
       (AudioEngine.audio_source_one_shot AudioEngine.__init__)).2
  = [[100; -100]; [50]].
Proof.
  apply (one_shot_plays_each_accepted_buffer
           (AudioEngine.audio_source_one_shot AudioEngine.__init__)
           [AudioSourceOneShot.SetWavSamples (Some [100; -100]) true;
            AudioSourceOneShot.SetWavSamples (Some [7]) false;
            AudioSourceOneShot.SetWavSamples None true;
            AudioSourceOneShot.SetWavSamples (Some [50]) true]).
  - reflexivity.
  - repeat constructor; discriminate.
Defined.

Lemma fresh_mixer_is_silent_witness :
  Forall (fun d => d = false)
         (Session.trigger_decisions 0
            (Session.run Examples.scenario_passes
               (AudioEngine.create_mixer [[100; -100]; [50; 60; 70]] 120 4
                  (Some AudioSourceMixer.NotificationSink) 80 0%Q)).2).
Proof.
  apply (fresh_mixer_is_silent [[100; -100]; [50; 60; 70]] 120 4
           (Some AudioSourceMixer.NotificationSink) 80 0%Q
           Examples.scenario_passes 0%nat).
  repeat constructor; discriminate.
Defined.

Lemma sound_kit_lookup_matches_samples_witness :
  (exists sound,
     SoundKitService.get_sound_at 1 Examples.kit
     = SoundKitService.ReturnedSound sound
     /\ py_getitem (SoundKitService.get_all_samples Examples.kit) 1
        = Some (SoundKitService.samples sound))
  /\ SoundKitService.get_sound_at 2 Examples.kit = SoundKitService.ReturnedNone.
Proof.
  split.
  - apply (sound_kit_lookup_matches_samples Examples.kit 1).
    vm_compute. split; [discriminate | reflexivity].
  - apply (sound_kit_lookup_matches_samples Examples.kit 2).
    vm_compute. discriminate.
Defined.

Lemma sound_kit_negative_index_witness :
  (exists sound,
     Examples.kit !! Z.to_nat (len Examples.kit + -1) = Some sound
     /\ SoundKitService.get_sound_at (-1) Examples.kit
        = SoundKitService.ReturnedSound sound)
  /\ SoundKitService.get_sound_at (-3) Examples.kit
     = SoundKitService.RaisedIndexError.
Proof.
  split.
  - apply (sound_kit_negative_index Examples.kit (-1)); [lia |].
    vm_compute. discriminate.
  - apply (sound_kit_negative_index Examples.kit (-3)); [lia |].
    vm_compute. reflexivity.
Defined.

Lemma indicator_shows_one_light_witness :
  PlayIndicatorWidget.lights
    (PlayIndicatorWidget.set_current_step_index 2 Examples.four_lights)
  = [PlayIndicatorWidget.indicator_light_off;
     PlayIndicatorWidget.indicator_light_off;
     PlayIndicatorWidget.indicator_light_on;
     PlayIndicatorWidget.indicator_light_off]
  /\ PlayIndicatorWidget.lights
       (PlayIndicatorWidget.set_current_step_index (-1) Examples.four_lights)
     = replicate 4 PlayIndicatorWidget.indicator_light_off.
Proof.
  split.
  - apply (indicator_shows_one_light Examples.four_lights 2).
    vm_compute. split; [discriminate | reflexivity].
  - apply (indicator_shows_one_light Examples.four_lights (-1)). lia.
Defined.

Lemma indicator_follows_mixer_witness :
  PlayIndicatorWidget.lights
    (PlayIndicatorWidget.show_all
       (Session.notifications
          (Session.run Examples.performance Examples.drum_machine).2)
       (PlayIndicatorWidget.set_nb_steps
          (AudioSourceMixer.nb_steps Examples.drum_machine)
          PlayIndicatorWidget.initial))
  = match last (Session.notifications
                  (Session.run Examples.performance Examples.drum_machine).2)
    with
    | Some d =>
        <[Z.to_nat d := PlayIndicatorWidget.indicator_light_on]>
          (replicate (Z.to_nat (AudioSourceMixer.nb_steps Examples.drum_machine))
                     PlayIndicatorWidget.indicator_light_off)
    | None =>
        replicate (Z.to_nat (AudioSourceMixer.nb_steps Examples.drum_machine))
                  PlayIndicatorWidget.indicator_light_off
    end.
Proof.
  refine (indicator_follows_mixer Examples.drum_machine Examples.performance
            _ _).
  - unfold Session.reachable, Examples.drum_machine.
    do 6 eexists. exists []. reflexivity.
  - vm_compute. discriminate.
Defined.

(** After the four ticks of the scenario the second light is on. *)
Example indicator_after_scenario :
  PlayIndicatorWidget.lights
    (PlayIndicatorWidget.show_all
       (Session.notifications
          (Session.run Examples.performance Examples.drum_machine).2)
       (PlayIndicatorWidget.set_nb_steps 4 PlayIndicatorWidget.initial))
  = [PlayIndicatorWidget.indicator_light_off;
     PlayIndicatorWidget.indicator_light_on;
     PlayIndicatorWidget.indicator_light_off;
     PlayIndicatorWidget.indicator_light_off].
Proof. vm_compute. reflexivity. Qed.

Lemma widget_edit_keeps_cursor_witness :
  exists steps,
    TrackWidget.current_pattern (TrackWidget.after_presses [0; 2; 2; 3]%nat 4)
    = Some steps
    /\ TrackWidget.on_step_button_state
         (TrackWidget.after_presses [0; 2; 2; 3]%nat 4)
         (AudioSourceTrack.ticks 3 Examples.kick)
       = Returned tt (AudioSourceTrack.set_steps steps
                        (AudioSourceTrack.ticks 3 Examples.kick))
    /\ AudioSourceTrack.steps
         (AudioSourceTrack.set_steps steps
            (AudioSourceTrack.ticks 3 Examples.kick)) = steps
    /\ len steps = len (AudioSourceTrack.steps
                          (AudioSourceTrack.ticks 3 Examples.kick))
    /\ AudioSourceTrack.current_step_index
         (AudioSourceTrack.set_steps steps
            (AudioSourceTrack.ticks 3 Examples.kick))
       = AudioSourceTrack.current_step_index
           (AudioSourceTrack.ticks 3 Examples.kick).
Proof.
  apply (widget_edit_keeps_cursor [0; 2; 2; 3]%nat 4
           (AudioSourceTrack.ticks 3 Examples.kick)).
  reflexivity.
Defined.

Lemma widget_backgrounds_alternate_by_four_witness :
  TrackWidget.background_normal
    <$> TrackWidget.step_buttons (TrackWidget.after_presses [5]%nat 16) !! 5%nat
  = Some TrackWidget.step_normal2.
Proof.
  apply (widget_backgrounds_alternate_by_four [5]%nat 16 5%nat). lia.
Defined.

(** The pattern of four buttons after the presses 0, 2, 2, 3. *)
Example widget_pattern_after_four_presses :
  TrackWidget.current_pattern (TrackWidget.after_presses [0; 2; 2; 3]%nat 4)
  = Some [1; 0; 0; 1].
Proof. reflexivity. Qed.

(** Mixing three loud samples saturates; a quiet mix is exact. *)
Example sum_16bits_saturates :
  AudioSourceMixer.sum_16bits [15000; 20000; 8000] = 32767
  /\ AudioSourceMixer.sum_16bits [-20000; -20000] = -32768
  /\ AudioSourceMixer.sum_16bits [100; -250; 30] = -120.
Proof. repeat split; reflexivity. Qed.

Lemma loops_keep_the_step_duration_witness :
  (AudioSourceTrack._sequencer_loop
     (3 # 16)
     (AudioSourceTrack._sequencer_loop
        (1 # 8) (AudioSourceTrack.start 0 Examples.kick)).1).2 = None
  /\ (AudioSourceMixer._master_sequencer_loop
        (3 # 16)
        (AudioSourceMixer._master_sequencer_loop
           (1 # 8) (Examples.playing Examples.drum_machine)).1).2 = None.
Proof.
  apply (loops_keep_the_step_duration
           (AudioSourceTrack.start 0 Examples.kick)
           (Examples.playing Examples.drum_machine)
           (1 # 8) (3 # 16) [Subscript 0; TriggerSample; PlaySound [100; -100]]
           [StepChanged 2]);
    vm_compute; reflexivity.
Defined.
